(** * squirrel: the value/protocol boundary of the query builder

    A shallow embedding of [squirrel.go]: the codec that turns native Go
    values into YDB typed values ([castArgToYQL], [castArgsToYQL]), the
    assembler that declares and names the typed parameters
    ([prepareYQLString], [prepareYQLParams]), the execution helpers
    ([ExecWith], [QueryWith], [QueryRowWith]) and the diagnostic renderer
    ([DebugSqlizer]).

    Go strings are byte strings ([string]); a Go slice is [None] when nil
    and [Some l] when it has a backing array; a Go pointer is [None] when
    nil and [Some v] when it points at [v].  A function that can stop with
    a run-time panic returns in [exec]. *)

From Stdlib Require Import ZArith List Bool Arith Lia FinFun.
From Stdlib Require Import Strings.String Strings.Ascii Strings.Byte.
From Stdlib Require Import Numbers.DecimalString Numbers.DecimalNat.
Import ListNotations.

Local Open Scope list_scope.
Local Open Scope string_scope.

(** ** The Go run time *)

Module Go.

Definition slice (A : Type) : Type := option (list A).
Definition ptr (A : Type) : Type := option A.

(** The elements of a slice; a nil slice has none. *)
Definition elems {A : Type} (s : slice A) : list A :=
  match s with
  | Some l => l
  | None => []
  end.

(** [s == nil] *)
Definition is_nil {A : Type} (s : slice A) : bool :=
  match s with
  | Some _ => false
  | None => true
  end.

(** An instant of [time.Time], kept abstract: the codec only hands it on. *)
Definition Time : Type := Z.

Inductive runtime_error : Type :=
| NilDereference
| SliceBoundsOutOfRange
| IndexOutOfRange.

(** The outcome of running a function body: it returns or it panics. *)
Inductive exec (A : Type) : Type :=
| Normal (a : A)
| Panic (p : runtime_error).

Arguments Normal {A} a.
Arguments Panic {A} p.

Definition bind {A B : Type} (m : exec A) (k : A -> exec B) : exec B :=
  match m with
  | Normal a => k a
  | Panic p => Panic p
  end.

(** [*p] *)
Definition deref {A : Type} (p : ptr A) : exec A :=
  match p with
  | Some v => Normal v
  | None => Panic NilDereference
  end.

(** [%d] of a non-negative int. *)
Definition itoa (n : nat) : string := NilEmpty.string_of_uint (Nat.to_uint n).

(** The line break, ["\n"]. *)
Definition newline : string := String (ascii_of_nat 10) EmptyString.

End Go.

Notation "x <- m ;; k" := (Go.bind m (fun x => k))
  (at level 61, m at next level, right associativity).

(** ** Package [types] of the YDB SDK *)

Module types.

Inductive Type_ : Type :=
| TypeBool
| TypeInt8 | TypeInt16 | TypeInt32 | TypeInt64
| TypeUint8 | TypeUint16 | TypeUint32 | TypeUint64
| TypeFloat | TypeDouble
| TypeText | TypeBytes
| TypeTimestamp
| TypeJSON
| Optional (t : Type_).

(** Modelled from the spec: the TypedValue of the data model, a tagged
    union with a present and a nullable variant of every kind; the
    nullable variant is either the absent marker [NullValue] of that kind
    or [OptionalValue] of a present value.  The package lives in the SDK,
    outside this repository.  Floats are carried as their IEEE bit
    patterns, no arithmetic is done on them. *)
Inductive Value : Type :=
| BoolValue (v : bool)
| Int8Value (v : Z) | Int16Value (v : Z) | Int32Value (v : Z) | Int64Value (v : Z)
| Uint8Value (v : Z) | Uint16Value (v : Z) | Uint32Value (v : Z) | Uint64Value (v : Z)
| FloatValue (bits : Z) | DoubleValue (bits : Z)
| TextValue (v : string)
| BytesValue (v : list byte)
| TimestampValue (t : Go.Time)
| JSONValue (v : string)
| OptionalValue (v : Value)
| NullValue (t : Type_).

Fixpoint TypeOf (v : Value) : Type_ :=
  match v with
  | BoolValue _ => TypeBool
  | Int8Value _ => TypeInt8 | Int16Value _ => TypeInt16
  | Int32Value _ => TypeInt32 | Int64Value _ => TypeInt64
  | Uint8Value _ => TypeUint8 | Uint16Value _ => TypeUint16
  | Uint32Value _ => TypeUint32 | Uint64Value _ => TypeUint64
  | FloatValue _ => TypeFloat | DoubleValue _ => TypeDouble
  | TextValue _ => TypeText
  | BytesValue _ => TypeBytes
  | TimestampValue _ => TypeTimestamp
  | JSONValue _ => TypeJSON
  | OptionalValue v' => Optional (TypeOf v')
  | NullValue t => Optional t
  end.

(** The [NullableXValue] constructors: nil gives the absent marker. *)
Definition Nullable {A : Type} (t : Type_) (mk : A -> Value) (p : Go.ptr A) : Value :=
  match p with
  | None => NullValue t
  | Some v => OptionalValue (mk v)
  end.

Definition NullableBoolValue := Nullable TypeBool BoolValue.
Definition NullableInt8Value := Nullable TypeInt8 Int8Value.
Definition NullableInt16Value := Nullable TypeInt16 Int16Value.
Definition NullableInt32Value := Nullable TypeInt32 Int32Value.
Definition NullableInt64Value := Nullable TypeInt64 Int64Value.
Definition NullableUint8Value := Nullable TypeUint8 Uint8Value.
Definition NullableUint16Value := Nullable TypeUint16 Uint16Value.
Definition NullableUint32Value := Nullable TypeUint32 Uint32Value.
Definition NullableUint64Value := Nullable TypeUint64 Uint64Value.
Definition NullableFloatValue := Nullable TypeFloat FloatValue.
Definition NullableDoubleValue := Nullable TypeDouble DoubleValue.
Definition NullableTextValue := Nullable TypeText TextValue.

Definition TimestampValueFromTime (t : Go.Time) : Value := TimestampValue t.
Definition NullableTimestampValueFromTime := Nullable TypeTimestamp TimestampValueFromTime.

Definition JSONValueFromBytes (b : Go.slice byte) : Value :=
  JSONValue (string_of_list_byte (Go.elems b)).
Definition NullableJSONValueFromBytes := Nullable TypeJSON JSONValueFromBytes.

(** Is the value the absent state of a nullable kind? *)
Definition is_absent (v : Value) : bool :=
  match v with
  | NullValue _ => true
  | _ => false
  end.

End types.

(** ** Dynamic values: what an [interface{}] can hold *)

(** The dynamic type of an [interface{}], as [%T] names it. *)
Inductive rtype : Type :=
| Tbool
| Tint | Tint8 | Tint16 | Tint32 | Tint64
| Tuint | Tuint8 | Tuint16 | Tuint32 | Tuint64
| Tfloat32 | Tfloat64
| Tstring | Tbytes
| TTime
| TRawMessage
| Tptr (t : rtype)
| TValue
| Tnamed (name : string).

(** One constructor per dynamic type the type switches of the package look
    at; [of_other] is a value of any other type (a struct, a [*[]byte], the
    nil interface ...), of which only the type name matters. *)
Inductive interface : Type :=
| of_bool (v : bool) | of_ptr_bool (p : Go.ptr bool)
| of_int (v : Z) | of_ptr_int (p : Go.ptr Z)
| of_int8 (v : Z) | of_ptr_int8 (p : Go.ptr Z)
| of_int16 (v : Z) | of_ptr_int16 (p : Go.ptr Z)
| of_int32 (v : Z) | of_ptr_int32 (p : Go.ptr Z)
| of_int64 (v : Z) | of_ptr_int64 (p : Go.ptr Z)
| of_uint (v : Z) | of_ptr_uint (p : Go.ptr Z)
| of_uint8 (v : Z) | of_ptr_uint8 (p : Go.ptr Z)
| of_uint16 (v : Z) | of_ptr_uint16 (p : Go.ptr Z)
| of_uint32 (v : Z) | of_ptr_uint32 (p : Go.ptr Z)
| of_uint64 (v : Z) | of_ptr_uint64 (p : Go.ptr Z)
| of_float32 (bits : Z) | of_ptr_float32 (p : Go.ptr Z)
| of_float64 (bits : Z) | of_ptr_float64 (p : Go.ptr Z)
| of_string (v : string) | of_ptr_string (p : Go.ptr string)
| of_bytes (v : Go.slice byte)
| of_Time (t : Go.Time) | of_ptr_Time (p : Go.ptr Go.Time)
| of_RawMessage (v : Go.slice byte)
| of_Value (v : types.Value)
| of_other (name : string).

Definition TypeOf (arg : interface) : rtype :=
  match arg with
  | of_bool _ => Tbool | of_ptr_bool _ => Tptr Tbool
  | of_int _ => Tint | of_ptr_int _ => Tptr Tint
  | of_int8 _ => Tint8 | of_ptr_int8 _ => Tptr Tint8
  | of_int16 _ => Tint16 | of_ptr_int16 _ => Tptr Tint16
  | of_int32 _ => Tint32 | of_ptr_int32 _ => Tptr Tint32
  | of_int64 _ => Tint64 | of_ptr_int64 _ => Tptr Tint64
  | of_uint _ => Tuint | of_ptr_uint _ => Tptr Tuint
  | of_uint8 _ => Tuint8 | of_ptr_uint8 _ => Tptr Tuint8
  | of_uint16 _ => Tuint16 | of_ptr_uint16 _ => Tptr Tuint16
  | of_uint32 _ => Tuint32 | of_ptr_uint32 _ => Tptr Tuint32
  | of_uint64 _ => Tuint64 | of_ptr_uint64 _ => Tptr Tuint64
  | of_float32 _ => Tfloat32 | of_ptr_float32 _ => Tptr Tfloat32
  | of_float64 _ => Tfloat64 | of_ptr_float64 _ => Tptr Tfloat64
  | of_string _ => Tstring | of_ptr_string _ => Tptr Tstring
  | of_bytes _ => Tbytes
  | of_Time _ => TTime | of_ptr_Time _ => Tptr TTime
  | of_RawMessage _ => TRawMessage
  | of_Value _ => TValue
  | of_other name => Tnamed name
  end.

(** The errors the package builds with [fmt.Errorf], and the errors of a
    query object's own production step. *)
Inductive error : Type :=
| UnsupportedType (t : rtype)          (* "unsupported type `%T`" *)
| NotTypedValue (t : rtype)            (* "arg %T is not ydb.Value" *)
| Wrapped (context : string) (e : error) (* "castArgToYQL: %w" *)
| ProductionError (msg : string).

(** ** TypedValueCodec *)

Definition ok (v : types.Value) : Go.exec (list types.Value * option error) :=
  Go.Normal ([v], None).

(** [int64(t)] and [uint64(t)] of a platform-native integer widen, so the
    number is unchanged. *)
Definition int64_of_int (t : Z) : Z := t.
Definition uint64_of_uint (t : Z) : Z := t.

Definition castArgToYQL (arg : interface) : Go.exec (list types.Value * option error) :=
  match arg with
  | of_bool t => ok (types.BoolValue t)
  | of_ptr_bool t => ok (types.NullableBoolValue t)
  | of_int t => ok (types.Int64Value (int64_of_int t))
  | of_ptr_int t =>
      v <- Go.deref t ;;
      let tt := int64_of_int v in
      ok (types.NullableInt64Value (Some tt))
  | of_int8 t => ok (types.Int8Value t)
  | of_ptr_int8 t => ok (types.NullableInt8Value t)
  | of_int16 t => ok (types.Int16Value t)
  | of_ptr_int16 t => ok (types.NullableInt16Value t)
  | of_int32 t => ok (types.Int32Value t)
  | of_ptr_int32 t => ok (types.NullableInt32Value t)
  | of_int64 t => ok (types.Int64Value t)
  | of_ptr_int64 t => ok (types.NullableInt64Value t)
  | of_uint t => ok (types.Uint64Value (uint64_of_uint t))
  | of_ptr_uint t =>
      v <- Go.deref t ;;
      let tt := uint64_of_uint v in
      ok (types.NullableUint64Value (Some tt))
  | of_uint8 t => ok (types.Uint8Value t)
  | of_ptr_uint8 t => ok (types.NullableUint8Value t)
  | of_uint16 t => ok (types.Uint16Value t)
  | of_ptr_uint16 t => ok (types.NullableUint16Value t)
  | of_uint32 t => ok (types.Uint32Value t)
  | of_ptr_uint32 t => ok (types.NullableUint32Value t)
  | of_uint64 t => ok (types.Uint64Value t)
  | of_ptr_uint64 t => ok (types.NullableUint64Value t)
  | of_float32 t => ok (types.FloatValue t)
  | of_ptr_float32 t => ok (types.NullableFloatValue t)
  | of_float64 t => ok (types.DoubleValue t)
  | of_ptr_float64 t => ok (types.NullableDoubleValue t)
  | of_string t => ok (types.TextValue t)
  | of_ptr_string t => ok (types.NullableTextValue t)
  | of_bytes t => ok (types.BytesValue (Go.elems t))
  | of_Time t => ok (types.TimestampValueFromTime t)
  | of_ptr_Time t => ok (types.NullableTimestampValueFromTime t)
  | of_RawMessage t =>
      match t with
      | None => ok (types.NullableJSONValueFromBytes None)
      | Some _ => ok (types.JSONValueFromBytes t)
      end
  | of_Value _ | of_other _ => Go.Normal ([], Some (UnsupportedType (TypeOf arg)))
  end.

(** The loop of [castArgsToYQL]; [yqlArgs] is the slice appended to. *)
Fixpoint castArgsToYQL_loop (args yqlArgs : list interface)
  : Go.exec (list interface * option error) :=
  match args with
  | [] => Go.Normal (yqlArgs, None)
  | arg :: rest =>
      match arg with
      | of_Value _ => castArgsToYQL_loop rest (yqlArgs ++ [arg])%list
      | _ =>
          r <- castArgToYQL arg ;;
          match r with
          | (_, Some err) => Go.Normal ([], Some (Wrapped "castArgToYQL" err))
          | (castedYQLArgs, None) =>
              castArgsToYQL_loop rest (yqlArgs ++ map of_Value castedYQLArgs)%list
          end
      end
  end.

(** A nil [[]interface{}] and an empty one are both the empty list. *)
Definition castArgsToYQL (args : list interface)
  : Go.exec (list interface * option error) :=
  if Nat.eqb (List.length args) 0 then Go.Normal ([], None)
  else castArgsToYQL_loop args [].


(** ** TypedQueryAssembler *)

Module table.

(** [table.ValueParam(name, v)]: a named binding of a typed value. *)
Record ParameterOption : Type := ValueParam { name : string; value : types.Value }.

End table.

Section Assembler.

(** [t.Yql()], the type text of the SDK. *)
Variable Yql : types.Type_ -> string.

(** The [range] loop of [prepareYQLString]: [i] is the loop index and [sb]
    the builder written so far.  An argument that fails the assertion to
    [types.Value] leaves the function at once. *)
Fixpoint prepareYQLString_loop (i : nat) (args : list interface) (sb : string)
  : string + error :=
  match args with
  | [] => inl sb
  | arg :: rest =>
      match arg with
      | of_Value yqlArg =>
          let sb := sb ++ ("DECLARE $p" ++ Go.itoa (i + 1) ++ " AS ") in
          let sb := sb ++ Yql (types.TypeOf yqlArg) in
          let sb := sb ++ (";" ++ Go.newline) in
          prepareYQLString_loop (S i) rest sb
      | _ => inr (NotTypedValue (TypeOf arg))
      end
  end.

Definition prepareYQLString (sql : string) (args : list interface)
  : string * option error :=
  match prepareYQLString_loop 0 args "" with
  | inr err => ("", Some err)
  | inl sb => (sb ++ sql, None)
  end.

End Assembler.

(** The [range] loop of [prepareYQLParams], appending to [yqlArgs]. *)
Fixpoint prepareYQLParams_loop (i : nat) (args : list interface)
  (yqlArgs : list table.ParameterOption) : list table.ParameterOption + error :=
  match args with
  | [] => inl yqlArgs
  | arg :: rest =>
      match arg with
      | of_Value yqlArgValue =>
          prepareYQLParams_loop (S i) rest
            (yqlArgs ++ [table.ValueParam ("p" ++ Go.itoa (i + 1)) yqlArgValue])%list
      | _ => inr (NotTypedValue (TypeOf arg))
      end
  end.

Definition prepareYQLParams (args : list interface)
  : list table.ParameterOption * option error :=
  match prepareYQLParams_loop 0 args [] with
  | inr err => ([], Some err)
  | inl yqlArgs => (yqlArgs, None)
  end.

(** The declaration line of one binding, as the declared-query text format
    has it. *)
Definition declaration (Yql : types.Type_ -> string) (p : table.ParameterOption) : string :=
  "DECLARE $" ++ table.name p ++ " AS " ++ Yql (types.TypeOf (table.value p))
    ++ ";" ++ Go.newline.

Definition concat_lines (ls : list string) : string := fold_right append "" ls.

(** Does the assertion [arg.(types.Value)] hold? *)
Definition is_Value (arg : interface) : bool :=
  match arg with
  | of_Value _ => true
  | _ => false
  end.

(** The typed values among the arguments, in order. *)
Definition typed_values (args : list interface) : list types.Value :=
  flat_map (fun arg => match arg with of_Value v => [v] | _ => [] end) args.

(** The first argument that is not a typed value. *)
Definition first_untyped (args : list interface) : option interface :=
  find (fun arg => negb (is_Value arg)) args.

(** The bindings of the typed values [vs], numbered from [i + 1]. *)
Definition numbered (i : nat) (vs : list types.Value) : list table.ParameterOption :=
  map (fun kv => table.ValueParam ("p" ++ Go.itoa (fst kv)) (snd kv))
      (combine (seq (i + 1) (List.length vs)) vs).

(** ** Query objects and backends *)

(** A query object: what its [ToSql] yields, and its placeholder when it is
    a [placeholderDebugger].  Go returns the three results side by side, so
    a text and arguments come back next to an error too. *)
Record Sqlizer : Type := {
  ToSql : string * list interface * option error;
  debugPlaceholder : option string
}.

(** One call that reached the backend. *)
Inductive call : Type :=
| CallExec (query : string) (args : list interface)
| CallQuery (query : string) (args : list interface)
| CallQueryRow (query : string) (args : list interface)
| CallScan.

Section Runner.

(** The state of the database behind the backend, and what [Exec] and
    [Query] hand back ([sql.Result], [*sql.Rows]). *)
Variables World Result Rows : Type.

(** The running state: the database and the calls made to it so far. *)
Definition state : Type := World * list call.

Definition M (A : Type) : Type := state -> A * state.

Definition ret {A : Type} (a : A) : M A := fun st => (a, st).

Definition invoke {A : Type} (c : call) (f : World -> A * World) : M A :=
  fun st =>
    let (r, w) := f (fst st) in
    (r, (w, (snd st ++ [c])%list)).

Record RowScanner : Type := { Scan : World -> option error * World }.

Record Execer : Type := {
  Exec : string -> list interface -> World -> (option Result * option error) * World
}.

Record Queryer : Type := {
  Query : string -> list interface -> World -> (option Rows * option error) * World
}.

Record QueryRower : Type := {
  QueryRow : string -> list interface -> World -> RowScanner * World
}.

(** Modelled from the spec: the DeferredRow of the data model ([Row] of
    row.go, not among the sources): the row cursor together with an
    optional earlier error. *)
Record Row : Type := { Row_RowScanner : RowScanner; Row_err : option error }.

(** Modelled from the spec: scanning a DeferredRow ([Row.Scan] of row.go,
    not among the sources) surfaces the earlier error in preference to
    reading the cursor. *)
Definition Row_Scan (r : Row) : M (option error) :=
  match Row_err r with
  | Some err => ret (Some err)
  | None => invoke CallScan (Scan (Row_RowScanner r))
  end.

Definition ExecWith (db : Execer) (s : Sqlizer) : M (option Result * option error) :=
  let '(query, args, err) := ToSql s in
  match err with
  | Some e => ret (None, Some e)
  | None => invoke (CallExec query args) (Exec db query args)
  end.

Definition QueryWith (db : Queryer) (s : Sqlizer) : M (option Rows * option error) :=
  let '(query, args, err) := ToSql s in
  match err with
  | Some e => ret (None, Some e)
  | None => invoke (CallQuery query args) (Query db query args)
  end.

Definition QueryRowWith (db : QueryRower) (s : Sqlizer) : M Row :=
  let '(query, args, err) := ToSql s in
  fun st =>
    let (scanner, st') := invoke (CallQueryRow query args) (QueryRow db query args) st in
    ({| Row_RowScanner := scanner; Row_err := err |}, st').

End Runner.

Arguments ret {World A} a.
Arguments invoke {World A} c f.
Arguments Scan {World} r.
Arguments QueryRow {World} q.
Arguments Row_RowScanner {World} r.
Arguments Row_err {World} r.
Arguments Row_Scan {World} r.
Arguments ExecWith {World Result} db s.
Arguments QueryWith {World Rows} db s.
Arguments QueryRowWith {World} db s.

(** ** DebugRenderer *)

Module strings.

(** [strings.Index(s, substr)]: the position of the first occurrence of
    [substr] in [s]; [None] stands for -1. *)
Fixpoint Index (s substr : string) : option nat :=
  if prefix substr s then Some 0
  else
    match s with
    | EmptyString => None
    | String _ s' => option_map S (Index s' substr)
    end.

End strings.

(** [s[lo:]], [s[:hi]] and [s[lo:hi]] for positions inside [s].  Beyond the
    end Go panics; the loop below tests the bound where a position can lie
    beyond it. *)
Fixpoint drop (lo : nat) (s : string) : string :=
  match lo, s with
  | S lo', String _ s' => drop lo' s'
  | _, _ => s
  end.

Fixpoint take (hi : nat) (s : string) : string :=
  match hi, s with
  | S hi', String c s' => String c (take hi' s')
  | _, _ => EmptyString
  end.

Definition slice (lo hi : nat) (s : string) : string := take (hi - lo) (drop lo s).

(** What the rendering comes to. *)
Inductive rendering : Type :=
| Rendered (text : string)
| TooManyPlaceholders (sql : string) (nargs : nat)
| NotEnoughPlaceholders (sql : string) (nargs : nat).

(** How the scanning loop is left: through [break], with the cursor text,
    the buffer and the number of arguments placed, or through the
    [return] inside it. *)
Inductive loop_exit : Type :=
| Break (sql buf : string) (i : nat)
| ReturnTooMany (sql : string).

Section DebugRenderer.

(** The verbs of package [fmt]: [%v] of an argument and [%#v] of a string. *)
Variable Sprint_v : interface -> string.
Variable Sprint_sharp_v : string -> string.

Variable placeholder : string.
Variable args : list interface.

(** The [for] loop of [DebugSqlizer].  Every turn that does not leave the
    loop shortens [sql], so [fuel] above its length is never used up. *)
Fixpoint DebugSqlizer_loop (fuel : nat) (sql buf : string) (i : nat)
  : option (Go.exec loop_exit) :=
  match fuel with
  | O => None
  | S fuel' =>
      match strings.Index sql placeholder with
      | None => Some (Go.Normal (Break sql buf i))
      | Some p =>
          if (1 <? String.length (drop p sql))%nat && (slice p (p + 2) sql =? "??")%string
          then
            let buf := buf ++ take p sql in
            let buf := buf ++ "?" in
            if (String.length (drop p sql) =? 1)%nat
            then Some (Go.Normal (Break sql buf i))
            else DebugSqlizer_loop fuel' (drop (p + 2) sql) buf i
          else
            if (List.length args <? i + 1)%nat
            then Some (Go.Normal (ReturnTooMany sql))
            else
              let buf := buf ++ take p sql in
              match nth_error args i with
              | None => Some (Go.Panic Go.IndexOutOfRange)
              | Some a =>
                  let buf := buf ++ ("'" ++ Sprint_v a ++ "'") in
                  if (String.length sql <? p + 1)%nat
                  then Some (Go.Panic Go.SliceBoundsOutOfRange)
                  else DebugSqlizer_loop fuel' (drop (p + 1) sql) buf (S i)
              end
      end
  end.

(** What follows the loop: the check of the arguments left over and the
    rest of the text; the [return] inside the loop has its message. *)
Definition after_loop (e : loop_exit) : rendering :=
  match e with
  | ReturnTooMany sql => TooManyPlaceholders sql (List.length args)
  | Break sql buf i =>
      if (i <? List.length args)%nat
      then NotEnoughPlaceholders sql (List.length args)
      else Rendered (buf ++ sql)
  end.

(** The loop and what follows it, on the text and arguments that [ToSql]
    gave. *)
Definition render (sql : string) : option (Go.exec rendering) :=
  match DebugSqlizer_loop (S (String.length sql)) sql "" 0 with
  | None => None
  | Some (Go.Panic p) => Some (Go.Panic p)
  | Some (Go.Normal e) => Some (Go.Normal (after_loop e))
  end.

Definition show (r : rendering) : string :=
  match r with
  | Rendered text => text
  | TooManyPlaceholders sql nargs =>
      "[DebugSqlizer error: too many placeholders in " ++ Sprint_sharp_v sql
        ++ " for " ++ Go.itoa nargs ++ " args]"
  | NotEnoughPlaceholders sql nargs =>
      "[DebugSqlizer error: not enough placeholders in " ++ Sprint_sharp_v sql
        ++ " for " ++ Go.itoa nargs ++ " args]"
  end.

End DebugRenderer.

(** [Sprint_err] is [%s] of an error. *)
Definition DebugSqlizer (Sprint_v : interface -> string)
  (Sprint_sharp_v : string -> string) (Sprint_err : error -> string)
  (s : Sqlizer) : option (Go.exec string) :=
  let '(sql, args, err) := ToSql s in
  match err with
  | Some e => Some (Go.Normal ("[ToSql error: " ++ Sprint_err e ++ "]"))
  | None =>
      let placeholder :=
        match debugPlaceholder s with
        | None => "?"
        | Some p => p
        end in
      match render Sprint_v placeholder args sql with
      | None => None
      | Some (Go.Panic p) => Some (Go.Panic p)
      | Some (Go.Normal r) => Some (Go.Normal (show Sprint_sharp_v r))
      end
  end.

(** [%v] of the arguments whose text is fixed by their value: booleans,
    integers and strings.  The text of the others (addresses of pointers,
    shortest float digits, [String] methods) is left to [other]. *)
Definition Z_to_string (z : Z) : string := NilEmpty.string_of_int (Z.to_int z).

Definition Sprint (other : interface -> string) (arg : interface) : string :=
  match arg with
  | of_bool true => "true"
  | of_bool false => "false"
  | of_int v | of_int8 v | of_int16 v | of_int32 v | of_int64 v
  | of_uint v | of_uint8 v | of_uint16 v | of_uint32 v | of_uint64 v => Z_to_string v
  | of_string v => v
  | _ => other arg
  end.

(** ** The renderer as the specification words it

    One pass over the characters of the text.  At the token [c]: a [??]
    pair is the escape and stands for one [?]; any other occurrence is a
    placeholder and takes the next argument. *)

Definition quoted (Sprint_v : interface -> string) (a : interface) : string :=
  "'" ++ Sprint_v a ++ "'".

Definition is_escape (x y : ascii) : bool := (x =? "?")%char && (y =? "?")%char.

(** The number of non-escaped occurrences of the token. *)
Fixpoint placeholders (c : ascii) (text : string) : nat :=
  match text with
  | EmptyString => 0
  | String x t =>
      if (x =? c)%char then
        match t with
        | String y t' => if is_escape x y then placeholders c t' else S (placeholders c t)
        | EmptyString => S (placeholders c t)
        end
      else placeholders c t
  end.

(** The text with its placeholders replaced, in order, by the quoted
    arguments; a placeholder beyond the arguments is left standing. *)
Fixpoint substitute (Sprint_v : interface -> string) (c : ascii) (text : string)
  (args : list interface) : string :=
  match text with
  | EmptyString => EmptyString
  | String x t =>
      if (x =? c)%char then
        let hole :=
          match args with
          | a :: args' => quoted Sprint_v a ++ substitute Sprint_v c t args'
          | [] => String x (substitute Sprint_v c t [])
          end in
        match t with
        | String y t' =>
            if is_escape x y then String "?" (substitute Sprint_v c t' args) else hole
        | EmptyString => hole
        end
      else String x (substitute Sprint_v c t args)
  end.

(** The text that is left at the cursor once [k] placeholders have been
    replaced: what follows the last escape or placeholder passed before the
    next placeholder, or before the end of the text. *)
Fixpoint remainder (c : ascii) (cursor text : string) (k : nat) : string :=
  match text with
  | EmptyString => cursor
  | String x t =>
      if (x =? c)%char then
        let hole :=
          match k with
          | S k' => remainder c t t k'
          | O => cursor
          end in
        match t with
        | String y t' => if is_escape x y then remainder c t' t' k else hole
        | EmptyString => hole
        end
      else remainder c cursor t k
  end.

(** Does the text after a token start the escape with it? *)
Definition starts_escape (c : ascii) (rest : string) : bool :=
  match rest with
  | String y _ => is_escape c y
  | EmptyString => false
  end.

(** The token [c] does not occur in [s]. *)
Fixpoint absent (c : ascii) (s : string) : bool :=
  match s with
  | EmptyString => true
  | String x t => negb (x =? c)%char && absent c t
  end.

(** A rendering with [s] written to the buffer before it: a rendered text
    starts with [s], a failure is as it was. *)
Definition emitted (s : string) (r : option (Go.exec rendering))
  : option (Go.exec rendering) :=
  match r with
  | Some (Go.Normal (Rendered text)) => Some (Go.Normal (Rendered (s ++ text)))
  | _ => r
  end.

(** The outcome the counts decide: with [k] placeholders in the text and
    [n] arguments. *)
Definition outcome (Sprint_v : interface -> string) (c : ascii) (sql : string)
  (args : list interface) : rendering :=
  let k := placeholders c sql in
  let n := List.length args in
  if (n <? k)%nat then TooManyPlaceholders (remainder c sql sql n) n
  else if (k <? n)%nat then NotEnoughPlaceholders (remainder c sql sql n) n
  else Rendered (substitute Sprint_v c sql args).

(** ** Shapes of arguments and of typed values *)

(** What a pointer argument points at, as an argument of its own; nothing
    for a nil pointer and for an argument that is no pointer. *)
Definition pointee (arg : interface) : option interface :=
  match arg with
  | of_ptr_bool (Some v) => Some (of_bool v)
  | of_ptr_int (Some v) => Some (of_int v)
  | of_ptr_int8 (Some v) => Some (of_int8 v)
  | of_ptr_int16 (Some v) => Some (of_int16 v)
  | of_ptr_int32 (Some v) => Some (of_int32 v)
  | of_ptr_int64 (Some v) => Some (of_int64 v)
  | of_ptr_uint (Some v) => Some (of_uint v)
  | of_ptr_uint8 (Some v) => Some (of_uint8 v)
  | of_ptr_uint16 (Some v) => Some (of_uint16 v)
  | of_ptr_uint32 (Some v) => Some (of_uint32 v)
  | of_ptr_uint64 (Some v) => Some (of_uint64 v)
  | of_ptr_float32 (Some v) => Some (of_float32 v)
  | of_ptr_float64 (Some v) => Some (of_float64 v)
  | of_ptr_string (Some v) => Some (of_string v)
  | of_ptr_Time (Some v) => Some (of_Time v)
  | _ => None
  end.

(** A present value of a primitive kind. *)
Definition is_scalar (v : types.Value) : bool :=
  match v with
  | types.OptionalValue _ | types.NullValue _ => false
  | _ => true
  end.

Definition is_primitive (t : types.Type_) : bool :=
  match t with
  | types.Optional _ => false
  | _ => true
  end.

(** A present primitive, or a nullable primitive in either state: no
    optional of an optional. *)
Definition flat (v : types.Value) : bool :=
  match v with
  | types.OptionalValue v' => is_scalar v'
  | types.NullValue t => is_primitive t
  | _ => true
  end.

(** The argument goes through the list cast: it is typed already, or the
    single-value cast returns without an error. *)
Definition casts (arg : interface) : bool :=
  is_Value arg ||
  match castArgToYQL arg with
  | Go.Normal (_, None) => true
  | _ => false
  end.

(** The place of an argument in the output of the list cast. *)
Definition cast_of (arg out : interface) : Prop :=
  match arg with
  | of_Value _ => out = arg
  | _ => exists v, castArgToYQL arg = Go.Normal ([v], None) /\ out = of_Value v
  end.

(** * Properties *)

(** ** TypedValueCodec *)

(** The pointer arms that hand the pointer itself to the SDK: the nullable
    value of the pointed-to kind, absent for nil. *)
Lemma castArgToYQL_pointer_arms :
  (forall p, castArgToYQL (of_ptr_bool p) = ok (types.Nullable types.TypeBool types.BoolValue p)) /\
  (forall p, castArgToYQL (of_ptr_int8 p) = ok (types.Nullable types.TypeInt8 types.Int8Value p)) /\
  (forall p, castArgToYQL (of_ptr_int16 p) = ok (types.Nullable types.TypeInt16 types.Int16Value p)) /\
  (forall p, castArgToYQL (of_ptr_int32 p) = ok (types.Nullable types.TypeInt32 types.Int32Value p)) /\
  (forall p, castArgToYQL (of_ptr_int64 p) = ok (types.Nullable types.TypeInt64 types.Int64Value p)) /\
  (forall p, castArgToYQL (of_ptr_uint8 p) = ok (types.Nullable types.TypeUint8 types.Uint8Value p)) /\
  (forall p, castArgToYQL (of_ptr_uint16 p) = ok (types.Nullable types.TypeUint16 types.Uint16Value p)) /\
  (forall p, castArgToYQL (of_ptr_uint32 p) = ok (types.Nullable types.TypeUint32 types.Uint32Value p)) /\
  (forall p, castArgToYQL (of_ptr_uint64 p) = ok (types.Nullable types.TypeUint64 types.Uint64Value p)) /\
  (forall p, castArgToYQL (of_ptr_float32 p) = ok (types.Nullable types.TypeFloat types.FloatValue p)) /\
  (forall p, castArgToYQL (of_ptr_float64 p) = ok (types.Nullable types.TypeDouble types.DoubleValue p)) /\
  (forall p, castArgToYQL (of_ptr_string p) = ok (types.Nullable types.TypeText types.TextValue p)) /\
  (forall p, castArgToYQL (of_ptr_Time p) = ok (types.Nullable types.TypeTimestamp types.TimestampValue p)).
Proof. repeat split. Qed.

(** A nullable value built from a pointer is absent exactly for nil. *)
Lemma Nullable_absent_iff {A : Type} (t : types.Type_) (mk : A -> types.Value) (p : Go.ptr A) :
  types.is_absent (types.Nullable t mk p) = true <-> p = None.
Proof.
  destruct p as [v|]; simpl; split; intros H; try reflexivity; discriminate H.
Qed.

(** The two arms that read through the pointer return the nullable 64-bit
    value when there is something to read. *)
Lemma castArgToYQL_ptr_int_some (v : Z) :
  castArgToYQL (of_ptr_int (Some v)) = ok (types.OptionalValue (types.Int64Value v)).
Proof. reflexivity. Qed.

Lemma castArgToYQL_ptr_uint_some (v : Z) :
  castArgToYQL (of_ptr_uint (Some v)) = ok (types.OptionalValue (types.Uint64Value v)).
Proof. reflexivity. Qed.

(** A pointer to a byte sequence has no arm in the type switch. *)
Lemma castArgToYQL_ptr_bytes_unsupported :
  castArgToYQL (of_other "*[]uint8") = Go.Normal ([], Some (UnsupportedType (Tnamed "*[]uint8"))).
Proof. reflexivity. Qed.

(** C2.  The claim: for every pointer to a supported primitive kind,
    [castArgToYQL] returns the nullable value of that kind, absent for a
    nil pointer, and never panics.  The code does so for the arms of
    [castArgToYQL_pointer_arms], but the [*int] arm reads [*t] before it
    builds the value: on a nil [*int] the call stops with a nil-dereference
    panic and returns nothing. *)
Theorem castArgToYQL_nil_int_pointer_panics :
  castArgToYQL (of_ptr_int None) = Go.Panic Go.NilDereference /\
  castArgToYQL (of_ptr_int64 None) = ok (types.NullValue types.TypeInt64).
Proof. split; reflexivity. Qed.

(** C10.  The claim: a [uint] gives one present 64-bit unsigned value
    carrying the number, and a [*uint] gives the nullable 64-bit unsigned
    kind.  The first half holds, and so does the second for a pointer that
    points at a number; a nil [*uint] is read through and the call panics. *)
Theorem castArgToYQL_uint :
  (forall v, castArgToYQL (of_uint v) = Go.Normal ([types.Uint64Value v], None)) /\
  (forall v, castArgToYQL (of_ptr_uint (Some v))
             = Go.Normal ([types.OptionalValue (types.Uint64Value v)], None)) /\
  castArgToYQL (of_ptr_uint None) = Go.Panic Go.NilDereference.
Proof. repeat split. Qed.

(** C9.  A JSON byte sequence is wrapped as present JSON whenever it is not
    the nil slice, the empty non-nil one included; the nil slice, and only
    it, gives the nullable JSON value in the absent state. *)
Theorem castArgToYQL_RawMessage (t : Go.slice byte) :
  (exists v,
      castArgToYQL (of_RawMessage t) = Go.Normal ([v], None)
      /\ v = match t with
             | None => types.NullValue types.TypeJSON
             | Some b => types.JSONValue (string_of_list_byte b)
             end
      /\ types.is_absent v = Go.is_nil t
      /\ types.TypeOf v
         = if Go.is_nil t then types.Optional types.TypeJSON else types.TypeJSON)
  /\ castArgToYQL (of_RawMessage (Some [])) = Go.Normal ([types.JSONValue ""], None).
Proof.
  split; [ | reflexivity ].
  destruct t as [b|]; eexists; repeat split.
Qed.

(** The loop of [castArgsToYQL] over typed values only appends them. *)
Lemma castArgsToYQL_loop_typed (vs : list types.Value) (acc : list interface) :
  castArgsToYQL_loop (map of_Value vs) acc = Go.Normal ((acc ++ map of_Value vs)%list, None).
Proof.
  revert acc. induction vs as [|v vs IH]; intros acc; simpl.
  - now rewrite app_nil_r.
  - rewrite IH, <- app_assoc. reflexivity.
Qed.

(** Whatever the list cast returns without an error is typed throughout. *)
Lemma castArgsToYQL_loop_all_typed (args acc out : list interface) :
  forallb is_Value acc = true ->
  castArgsToYQL_loop args acc = Go.Normal (out, None) ->
  forallb is_Value out = true.
Proof.
  revert acc. induction args as [|a args IH]; intros acc Hacc H; simpl in H.
  - now injection H as <-.
  - assert (Hstep : forall vs, forallb is_Value (acc ++ map of_Value vs)%list = true).
    { intros vs. rewrite forallb_app, Hacc. simpl.
      induction vs; simpl; auto. }
    destruct a; simpl in H;
      try (apply (IH _ (Hstep [_]) H));
      try (destruct v; simpl in H; first [ apply (IH _ (Hstep [_]) H) | discriminate H ]);
      try (destruct p; simpl in H; first [ apply (IH _ (Hstep [_]) H) | discriminate H ]);
      try discriminate H.
Qed.

Lemma all_typed_map (l : list interface) :
  forallb is_Value l = true -> l = map of_Value (typed_values l).
Proof.
  induction l as [|a l IH]; simpl; intros H; [reflexivity|].
  apply andb_true_iff in H as [Ha Hl].
  destruct a; try discriminate Ha. unfold typed_values in *. simpl.
  now rewrite <- IH.
Qed.

(** A list of typed values comes back as it went in. *)
Lemma castArgsToYQL_typed_list (vs : list types.Value) :
  castArgsToYQL (map of_Value vs) = Go.Normal (map of_Value vs, None).
Proof.
  destruct vs as [|v vs]; [reflexivity|].
  unfold castArgsToYQL. cbn [map List.length Nat.eqb].
  change (of_Value v :: map of_Value vs) with (map of_Value (v :: vs)).
  now rewrite castArgsToYQL_loop_typed.
Qed.

(** The list cast is idempotent: casting its own output changes nothing. *)
Lemma castArgsToYQL_idempotent (args out : list interface) :
  castArgsToYQL args = Go.Normal (out, None) ->
  castArgsToYQL out = Go.Normal (out, None).
Proof.
  unfold castArgsToYQL at 1. intros H.
  assert (Hall : forallb is_Value out = true).
  { destruct (Nat.eqb (List.length args) 0).
    - now injection H as <-.
    - now apply (castArgsToYQL_loop_all_typed args [] out). }
  rewrite (all_typed_map out Hall). apply castArgsToYQL_typed_list.
Qed.

(** The single-value cast has no arm for a typed value. *)
Lemma castArgToYQL_of_Value (v : types.Value) :
  castArgToYQL (of_Value v) = Go.Normal ([], Some (UnsupportedType TValue)).
Proof. reflexivity. Qed.

(** C7, as claimed, fails for the single-value cast: a typed value handed
    to [castArgToYQL] is not returned, it is rejected as unsupported. *)
Lemma castArgToYQL_rejects_typed_value :
  castArgToYQL (of_Value (types.Int64Value 7))
  = Go.Normal ([], Some (UnsupportedType TValue))
  /\ castArgToYQL (of_Value (types.Int64Value 7))
     <> Go.Normal ([types.Int64Value 7], None).
Proof. split; [reflexivity | discriminate]. Qed.

(** C7, amended.  The list cast passes a typed value through: in any
    position it is appended as it is and [castArgToYQL] is not consulted,
    so a list of typed values is returned unchanged.  The single-value cast
    does not share the short-circuit and rejects every typed value. *)
Theorem castArgsToYQL_typed_value_passthrough :
  (forall vs, castArgsToYQL (map of_Value vs) = Go.Normal (map of_Value vs, None)) /\
  (forall v rest acc,
      castArgsToYQL_loop (of_Value v :: rest) acc
      = castArgsToYQL_loop rest (acc ++ [of_Value v])%list) /\
  (forall v, castArgToYQL (of_Value v) = Go.Normal ([], Some (UnsupportedType TValue))).
Proof.
  repeat split. apply castArgsToYQL_typed_list.
Qed.

(** ** Strings *)

Lemma append_assoc (a b c : string) : (a ++ b) ++ c = a ++ (b ++ c).
Proof. induction a as [|x a IH]; simpl; [reflexivity | now rewrite IH]. Qed.

Lemma append_nil_r (a : string) : a ++ "" = a.
Proof. induction a as [|x a IH]; simpl; [reflexivity | now rewrite IH]. Qed.

Lemma length_append (a b : string) :
  String.length (a ++ b) = String.length a + String.length b.
Proof. induction a as [|x a IH]; simpl; [reflexivity | now rewrite IH]. Qed.

(** [%d] gives different texts to different numbers. *)
Lemma itoa_inj (n m : nat) : Go.itoa n = Go.itoa m -> n = m.
Proof.
  unfold Go.itoa. intros H. apply DecimalNat.Unsigned.to_uint_inj.
  assert (E : Some (Nat.to_uint n) = Some (Nat.to_uint m))
    by (rewrite <- (NilEmpty.usu (Nat.to_uint n)), <- (NilEmpty.usu (Nat.to_uint m)); now rewrite H).
  now injection E.
Qed.

(** ** TypedQueryAssembler *)

Section AssemblerProperties.

Variable Yql : types.Type_ -> string.

Lemma numbered_cons (i : nat) (v : types.Value) (vs : list types.Value) :
  numbered i (v :: vs) = table.ValueParam ("p" ++ Go.itoa (i + 1)) v :: numbered (S i) vs.
Proof. reflexivity. Qed.

Lemma numbered_names (i : nat) (vs : list types.Value) :
  map table.name (numbered i vs)
  = map (fun k => "p" ++ Go.itoa k) (seq (i + 1) (List.length vs)).
Proof.
  revert i. induction vs as [|v vs IH]; intros i; [reflexivity|].
  rewrite numbered_cons. cbn [map List.length seq table.name]. f_equal. apply (IH (S i)).
Qed.

Lemma numbered_values (i : nat) (vs : list types.Value) :
  map table.value (numbered i vs) = vs.
Proof.
  revert i. induction vs as [|v vs IH]; intros i; [reflexivity|].
  rewrite numbered_cons. cbn [map table.value]. f_equal. apply IH.
Qed.

(** Over typed values the declaring loop writes one declaration per value,
    numbered from [i + 1]. *)
Lemma prepareYQLString_loop_typed (vs : list types.Value) (i : nat) (sb : string) :
  prepareYQLString_loop Yql i (map of_Value vs) sb
  = inl (sb ++ concat_lines (map (declaration Yql) (numbered i vs))).
Proof.
  revert i sb. induction vs as [|v vs IH]; intros i sb.
  - simpl. now rewrite append_nil_r.
  - rewrite numbered_cons. cbn [map prepareYQLString_loop concat_lines fold_right].
    rewrite IH. f_equal. unfold declaration, concat_lines. cbn [table.name table.value].
    rewrite !append_assoc. reflexivity.
Qed.

Lemma prepareYQLParams_loop_typed (vs : list types.Value) (i : nat)
  (acc : list table.ParameterOption) :
  prepareYQLParams_loop i (map of_Value vs) acc = inl (acc ++ numbered i vs)%list.
Proof.
  revert i acc. induction vs as [|v vs IH]; intros i acc.
  - simpl. now rewrite app_nil_r.
  - rewrite numbered_cons. cbn [map prepareYQLParams_loop].
    rewrite IH, <- app_assoc. reflexivity.
Qed.

(** Both loops leave at the first argument that is not typed, with the same
    error. *)
Lemma prepareYQLString_loop_untyped (args : list interface) (a : interface)
  (i : nat) (sb : string) :
  first_untyped args = Some a ->
  prepareYQLString_loop Yql i args sb = inr (NotTypedValue (TypeOf a)).
Proof.
  unfold first_untyped. revert i sb.
  induction args as [|x args IH]; intros i sb H; [discriminate H|].
  destruct x; simpl in H |- *; try (injection H as <-; reflexivity).
  now apply IH.
Qed.

Lemma prepareYQLParams_loop_untyped (args : list interface) (a : interface)
  (i : nat) (acc : list table.ParameterOption) :
  first_untyped args = Some a ->
  prepareYQLParams_loop i args acc = inr (NotTypedValue (TypeOf a)).
Proof.
  unfold first_untyped. revert i acc.
  induction args as [|x args IH]; intros i acc H; [discriminate H|].
  destruct x; simpl in H |- *; try (injection H as <-; reflexivity).
  now apply IH.
Qed.

Lemma first_untyped_none (args : list interface) :
  first_untyped args = None -> args = map of_Value (typed_values args).
Proof.
  unfold first_untyped, typed_values.
  induction args as [|x args IH]; intros H; [reflexivity|].
  destruct x; simpl in H |- *; try discriminate H.
  f_equal. now apply IH.
Qed.

Lemma typed_values_length (args : list interface) :
  first_untyped args = None -> List.length (typed_values args) = List.length args.
Proof.
  intros H. rewrite (first_untyped_none args H) at 2. now rewrite length_map.
Qed.

(** What [prepareYQLParams] returns: the numbered bindings of the
    arguments, or the error of the first argument that is not typed. *)
Lemma prepareYQLParams_spec (args : list interface) :
  prepareYQLParams args
  = match first_untyped args with
    | None => (numbered 0 (typed_values args), None)
    | Some a => ([], Some (NotTypedValue (TypeOf a)))
    end.
Proof.
  unfold prepareYQLParams. destruct (first_untyped args) as [a|] eqn:E.
  - now rewrite (prepareYQLParams_loop_untyped args a 0 [] E).
  - rewrite (first_untyped_none args E) at 1. now rewrite prepareYQLParams_loop_typed.
Qed.

Lemma prepareYQLString_spec (sql : string) (args : list interface) :
  prepareYQLString Yql sql args
  = match first_untyped args with
    | None =>
        (concat_lines (map (declaration Yql) (numbered 0 (typed_values args))) ++ sql, None)
    | Some a => ("", Some (NotTypedValue (TypeOf a)))
    end.
Proof.
  unfold prepareYQLString. destruct (first_untyped args) as [a|] eqn:E.
  - now rewrite (prepareYQLString_loop_untyped args a 0 "" E).
  - rewrite (first_untyped_none args E) at 1. now rewrite prepareYQLString_loop_typed.
Qed.


(** C8.  [prepareYQLString] returns, when every argument is typed, the
    lines [DECLARE $p<N> AS <type>;] each ended by a line break, one per
    argument with N = 1, 2, ... in argument order, and then the body as it
    was given; at the first argument that is not typed it returns the
    empty text and the NotTypedValue error of that argument. *)
Theorem prepareYQLString_declares (sql : string) (args : list interface) :
  prepareYQLString Yql sql args
  = match first_untyped args with
    | None =>
        (concat_lines
           (map (fun kv => "DECLARE $p" ++ Go.itoa (fst kv) ++ " AS "
                             ++ Yql (types.TypeOf (snd kv)) ++ ";" ++ Go.newline)
                (combine (seq 1 (List.length args)) (typed_values args)))
           ++ sql, None)
    | Some a => ("", Some (NotTypedValue (TypeOf a)))
    end.
Proof.
  rewrite prepareYQLString_spec.
  destruct (first_untyped args) as [a|] eqn:E; [reflexivity|].
  unfold numbered. rewrite map_map, (typed_values_length args E). reflexivity.
Qed.

End AssemblerProperties.

(** The indices are in order and none is skipped or used twice. *)
Lemma binding_names_distinct (n : nat) :
  NoDup (map (fun k => "p" ++ Go.itoa k) (seq 1 n)).
Proof.
  apply Injective_map_NoDup; [ | apply seq_NoDup ].
  intros a b H. injection H as H. now apply itoa_inj.
Qed.

(** ** Execution helpers *)

Section RunnerProperties.

Variables World Result Rows : Type.

(** [ExecWith] and [QueryWith] stop at a production error: the backend is
    not called. *)
Lemma ExecWith_production_error (db : Execer World Result) (query : string)
  (args : list interface) (e : error) (dbg : option string) (st : state World) :
  ExecWith db {| ToSql := (query, args, Some e); debugPlaceholder := dbg |} st
  = ((None, Some e), st).
Proof. reflexivity. Qed.

Lemma QueryWith_production_error (db : Queryer World Rows) (query : string)
  (args : list interface) (e : error) (dbg : option string) (st : state World) :
  QueryWith db {| ToSql := (query, args, Some e); debugPlaceholder := dbg |} st
  = ((None, Some e), st).
Proof. reflexivity. Qed.

(** Scanning a row that carries an error gives that error back and makes no
    call. *)
Lemma Row_Scan_deferred_error (scanner : RowScanner World) (e : error) (st : state World) :
  Row_Scan {| Row_RowScanner := scanner; Row_err := Some e |} st = (Some e, st).
Proof. reflexivity. Qed.

(** Scanning a row without an error reads the cursor. *)
Lemma Row_Scan_reads_cursor (scanner : RowScanner World) (st : state World) :
  Row_Scan {| Row_RowScanner := scanner; Row_err := None |} st
  = (fst (Scan scanner (fst st)), (snd (Scan scanner (fst st)), (snd st ++ [CallScan])%list)).
Proof.
  unfold Row_Scan, invoke. simpl. now destruct (Scan scanner (fst st)).
Qed.

(** C3.  Whatever [ToSql] yields, an error included, [QueryRowWith] makes
    exactly one call to the backend's [QueryRow], with the text and
    arguments that [ToSql] gave, and returns a row holding the backend's
    cursor next to the production error.  Scanning the row of a failed
    production gives the production error and leaves the cursor unread: no
    call is added. *)
Theorem QueryRowWith_defers_error (db : QueryRower World) (query : string)
  (args : list interface) (err : option error) (dbg : option string)
  (st : state World) :
  let s := {| ToSql := (query, args, err); debugPlaceholder := dbg |} in
  QueryRowWith db s st
  = ({| Row_RowScanner := fst (QueryRow db query args (fst st)); Row_err := err |},
     (snd (QueryRow db query args (fst st)), (snd st ++ [CallQueryRow query args])%list))
  /\ (forall e st',
        Row_Scan (fst (QueryRowWith db
                         {| ToSql := (query, args, Some e); debugPlaceholder := dbg |} st)) st'
        = (Some e, st')).
Proof.
  unfold QueryRowWith, invoke. simpl. split.
  - now destruct (QueryRow db query args (fst st)).
  - intros e st'. now destruct (QueryRow db query args (fst st)).
Qed.

End RunnerProperties.

(** ** DebugRenderer *)

Lemma take_drop (p : nat) (s : string) : take p s ++ drop p s = s.
Proof.
  revert s. induction p as [|p IH]; intros [|x s]; simpl; try reflexivity.
  now rewrite IH.
Qed.

Lemma drop_append (a b : string) : drop (String.length a) (a ++ b) = b.
Proof. induction a as [|x a IH]; simpl; [now destruct b | exact IH]. Qed.

Lemma take_append (a b : string) : take (String.length a) (a ++ b) = a.
Proof. induction a as [|x a IH]; simpl; [now destruct b | now rewrite IH]. Qed.

Lemma drop_drop (p q : nat) (s : string) : drop q (drop p s) = drop (p + q) s.
Proof.
  revert s. induction p as [|p IH]; intros s; simpl; [reflexivity|].
  destruct s as [|x s]; [now destruct q | apply IH].
Qed.

Lemma absent_append (c : ascii) (a b : string) :
  absent c (a ++ b) = absent c a && absent c b.
Proof.
  induction a as [|x a IH]; simpl; [reflexivity|]. now rewrite IH, andb_assoc.
Qed.

Section SingleCharacterToken.

Variable c : ascii.

Local Abbreviation token := (String c EmptyString).

Lemma prefix_token (s : string) :
  prefix token s = match s with
                   | String x _ => (x =? c)%char
                   | EmptyString => false
                   end.
Proof.
  destruct s as [|x s]; simpl; [reflexivity|].
  destruct (ascii_dec c x) as [<-|N].
  - rewrite Ascii.eqb_refl. now destruct s.
  - symmetry. apply Ascii.eqb_neq. congruence.
Qed.

(** [strings.Index] does not find the token exactly when it is absent. *)
Lemma Index_token_None (s : string) :
  strings.Index s token = None <-> absent c s = true.
Proof.
  induction s as [|x s IH]; cbn [strings.Index absent].
  - rewrite prefix_token. tauto.
  - rewrite prefix_token. destruct (x =? c)%char; simpl.
    + split; discriminate.
    + rewrite <- IH. destruct (strings.Index s token); simpl; split; congruence.
Qed.

(** When it finds the token at [p], the text is a token-free part of
    length [p], the token, and the rest. *)
Lemma Index_token_Some (s : string) (p : nat) :
  strings.Index s token = Some p ->
  exists pre rest,
    s = pre ++ String c rest /\ absent c pre = true /\ String.length pre = p.
Proof.
  revert p. induction s as [|x s IH]; intros p; cbn [strings.Index].
  - rewrite prefix_token. discriminate.
  - rewrite prefix_token. destruct (x =? c)%char eqn:E.
    + intros [= <-]. apply Ascii.eqb_eq in E as ->.
      exists EmptyString, s. repeat split.
    + destruct (strings.Index s token) as [q|]; [ | discriminate ].
      intros [= <-]. destruct (IH q eq_refl) as (pre & rest & -> & Hpre & Hlen).
      exists (String x pre), rest. simpl. rewrite E, Hpre, Hlen. repeat split.
Qed.

(** The functions of the specification skip a token-free part. *)
Lemma placeholders_skip (pre s : string) :
  absent c pre = true -> placeholders c (pre ++ s) = placeholders c s.
Proof.
  induction pre as [|x pre IH]; simpl; [reflexivity|].
  intros H. apply andb_true_iff in H as [Hx Hpre].
  apply negb_true_iff in Hx. rewrite Hx. now apply IH.
Qed.

Lemma substitute_skip (Sprint_v : interface -> string) (pre s : string)
  (args : list interface) :
  absent c pre = true ->
  substitute Sprint_v c (pre ++ s) args = pre ++ substitute Sprint_v c s args.
Proof.
  induction pre as [|x pre IH]; simpl; [reflexivity|].
  intros H. apply andb_true_iff in H as [Hx Hpre].
  apply negb_true_iff in Hx. rewrite Hx. now rewrite IH.
Qed.

Lemma remainder_skip (cursor pre s : string) (k : nat) :
  absent c pre = true -> remainder c cursor (pre ++ s) k = remainder c cursor s k.
Proof.
  induction pre as [|x pre IH]; simpl; [reflexivity|].
  intros H. apply andb_true_iff in H as [Hx Hpre].
  apply negb_true_iff in Hx. rewrite Hx. now apply IH.
Qed.

Lemma placeholders_absent (s : string) : absent c s = true -> placeholders c s = 0.
Proof.
  intros H. rewrite <- (append_nil_r s). now rewrite placeholders_skip.
Qed.

Lemma substitute_absent (Sprint_v : interface -> string) (s : string)
  (args : list interface) :
  absent c s = true -> substitute Sprint_v c s args = s.
Proof.
  intros H. rewrite <- (append_nil_r s) at 1. rewrite substitute_skip by assumption.
  simpl. apply append_nil_r.
Qed.

Lemma remainder_absent (cursor s : string) (k : nat) :
  absent c s = true -> remainder c cursor s k = cursor.
Proof.
  intros H. rewrite <- (append_nil_r s). now rewrite remainder_skip.
Qed.

End SingleCharacterToken.

Section RendererProperties.

Variable Sprint_v : interface -> string.
Variable c : ascii.
Variable args : list interface.

Local Abbreviation token := (String c EmptyString).

(** The functions of the specification at a token. *)
Lemma placeholders_token (rest : string) :
  placeholders c (String c rest)
  = if starts_escape c rest then placeholders c (drop 1 rest)
    else S (placeholders c rest).
Proof.
  cbn [placeholders]. rewrite Ascii.eqb_refl.
  destruct rest as [|y t]; [reflexivity|]. cbn [starts_escape drop].
  now destruct (is_escape c y).
Qed.

Lemma substitute_token (rest : string) (l : list interface) :
  substitute Sprint_v c (String c rest) l
  = if starts_escape c rest
    then String "?" (substitute Sprint_v c (drop 1 rest) l)
    else match l with
         | a :: l' => quoted Sprint_v a ++ substitute Sprint_v c rest l'
         | [] => String c (substitute Sprint_v c rest [])
         end.
Proof.
  cbn [substitute]. rewrite Ascii.eqb_refl.
  destruct rest as [|y t]; [reflexivity|]. cbn [starts_escape drop].
  now destruct (is_escape c y).
Qed.

Lemma remainder_token (cursor rest : string) (k : nat) :
  remainder c cursor (String c rest) k
  = if starts_escape c rest then remainder c (drop 1 rest) (drop 1 rest) k
    else match k with
         | S k' => remainder c rest rest k'
         | O => cursor
         end.
Proof.
  cbn [remainder]. rewrite Ascii.eqb_refl.
  destruct rest as [|y t]; [reflexivity|]. cbn [starts_escape drop].
  now destruct (is_escape c y).
Qed.

(** The first token after a token-free part is where [strings.Index]
    finds it. *)
Lemma Index_token_at (pre rest : string) :
  absent c pre = true ->
  strings.Index (pre ++ String c rest) (String c EmptyString) = Some (String.length pre).
Proof.
  induction pre as [|x pre IH]; intros H; cbn [append strings.Index].
  - rewrite prefix_token. now rewrite Ascii.eqb_refl.
  - rewrite prefix_token. cbn [absent] in H.
    apply andb_true_iff in H as [Hx Hpre]. apply negb_true_iff in Hx.
    rewrite Hx, (IH Hpre). reflexivity.
Qed.

(** The test of the loop for the escape, at a token found at [p]. *)
Lemma escape_test (pre rest : string) :
  let sql := pre ++ String c rest in
  let p := String.length pre in
  ((1 <? String.length (drop p sql))%nat && (slice p (p + 2) sql =? "??")%string)
  = starts_escape c rest.
Proof.
  cbv zeta. unfold slice. rewrite drop_append.
  replace (String.length pre + 2 - String.length pre) with 2 by lia.
  destruct rest as [|y t]; [reflexivity|].
  cbn [String.length take starts_escape String.eqb Nat.ltb Nat.leb andb].
  unfold is_escape. now destruct (c =? "?")%char, (y =? "?")%char.
Qed.

(** One turn of the loop at an escape: the part before the token and one
    [?] go to the buffer, the cursor moves behind the pair, and the count
    of placed arguments stays. *)
Lemma DebugSqlizer_loop_escape (fuel : nat) (pre rest buf : string) (i : nat) :
  absent c pre = true ->
  starts_escape c rest = true ->
  DebugSqlizer_loop Sprint_v token args (S fuel) (pre ++ String c rest) buf i
  = DebugSqlizer_loop Sprint_v token args fuel (drop 1 rest) ((buf ++ pre) ++ "?") i.
Proof.
  intros Hpre Hesc. cbn [DebugSqlizer_loop].
  assert (HI := Index_token_at pre rest Hpre).
  rewrite HI, (escape_test pre rest), Hesc, take_append, drop_append.
  destruct rest as [|y t]; [discriminate Hesc|].
  cbn [String.length Nat.eqb]. rewrite <- drop_drop, drop_append. reflexivity.
Qed.

(** The loop ends when the token is not found. *)
Lemma DebugSqlizer_loop_done (fuel : nat) (sql buf : string) (i : nat) :
  absent c sql = true ->
  DebugSqlizer_loop Sprint_v token args (S fuel) sql buf i
  = Some (Go.Normal (Break sql buf i)).
Proof.
  intros H. cbn [DebugSqlizer_loop].
  assert (HI := proj2 (Index_token_None c sql) H).
  now rewrite HI.
Qed.

(** One turn at a placeholder with no argument left: the function returns
    with the text at the cursor. *)
Lemma DebugSqlizer_loop_too_many (fuel : nat) (pre rest buf : string) (i : nat) :
  absent c pre = true ->
  starts_escape c rest = false ->
  List.length args <= i ->
  DebugSqlizer_loop Sprint_v token args (S fuel) (pre ++ String c rest) buf i
  = Some (Go.Normal (ReturnTooMany (pre ++ String c rest))).
Proof.
  intros Hpre Hesc Hi. cbn [DebugSqlizer_loop].
  assert (HI := Index_token_at pre rest Hpre).
  rewrite HI, (escape_test pre rest), Hesc.
  now rewrite (proj2 (Nat.ltb_lt _ _)) by lia.
Qed.

(** One turn at a placeholder with an argument left: the part before the
    token and the quoted argument go to the buffer, the cursor moves behind
    the token and one more argument is placed. *)
Lemma DebugSqlizer_loop_placeholder (fuel : nat) (pre rest buf : string) (i : nat)
  (a : interface) :
  absent c pre = true ->
  starts_escape c rest = false ->
  nth_error args i = Some a ->
  DebugSqlizer_loop Sprint_v token args (S fuel) (pre ++ String c rest) buf i
  = DebugSqlizer_loop Sprint_v token args fuel rest
      ((buf ++ pre) ++ quoted Sprint_v a) (S i).
Proof.
  intros Hpre Hesc Ha. cbn [DebugSqlizer_loop].
  assert (HI := Index_token_at pre rest Hpre).
  rewrite HI, (escape_test pre rest), Hesc.
  assert (Hi : i < List.length args) by (apply nth_error_Some; congruence).
  rewrite (proj2 (Nat.ltb_ge _ _)) by lia.
  rewrite Ha, take_append.
  rewrite (proj2 (Nat.ltb_ge _ _)) by (rewrite length_append; simpl; lia).
  rewrite <- drop_drop, drop_append. reflexivity.
Qed.

Lemma length_drop_le (p : nat) (s : string) : String.length (drop p s) <= String.length s.
Proof.
  revert s. induction p as [|p IH]; intros [|x s]; simpl; auto.
Qed.

(** What the loop and the check after it come to, from any cursor: [used]
    are the arguments placed so far, [rest_args] the ones left. *)
Lemma DebugSqlizer_loop_outcome (fuel : nat) :
  forall (sql buf : string) (used rest_args : list interface),
    args = (used ++ rest_args)%list ->
    String.length sql < fuel ->
    exists e,
      DebugSqlizer_loop Sprint_v token args fuel sql buf (List.length used)
      = Some (Go.Normal e)
      /\ after_loop args e
         = let k := placeholders c sql in
           let n := List.length rest_args in
           if (n <? k)%nat
           then TooManyPlaceholders (remainder c sql sql n) (List.length args)
           else if (k <? n)%nat
                then NotEnoughPlaceholders (remainder c sql sql n) (List.length args)
                else Rendered (buf ++ substitute Sprint_v c sql rest_args).
Proof.
  induction fuel as [|fuel IH]; intros sql buf used rest_args Hargs Hfuel; [lia|].
  cbv zeta.
  destruct (strings.Index sql token) as [p|] eqn:E.
  - destruct (Index_token_Some c sql p E) as (pre & rest & -> & Hpre & <-). clear E.
    rewrite length_append in Hfuel. cbn [String.length] in Hfuel.
    rewrite (placeholders_skip c pre _ Hpre), (remainder_skip c _ pre _ _ Hpre),
      (substitute_skip c Sprint_v pre _ _ Hpre).
    rewrite placeholders_token, remainder_token, substitute_token.
    destruct (starts_escape c rest) eqn:Hesc.
    + rewrite (DebugSqlizer_loop_escape fuel pre rest buf _ Hpre Hesc).
      assert (Hlen := length_drop_le 1 rest).
      destruct (IH (drop 1 rest) ((buf ++ pre) ++ "?") used rest_args Hargs ltac:(lia))
        as (e & He & Hafter).
      exists e. split; [exact He|]. rewrite Hafter. cbv zeta.
      rewrite !append_assoc. reflexivity.
    + destruct rest_args as [|a rest_args].
      * rewrite app_nil_r in Hargs.
        rewrite (DebugSqlizer_loop_too_many fuel pre rest buf _ Hpre Hesc)
          by (rewrite Hargs; lia).
        eexists. split; [reflexivity|]. reflexivity.
      * assert (Ha : nth_error args (List.length used) = Some a)
          by (rewrite Hargs; apply nth_error_app2_eq || (rewrite nth_error_app2 by lia;
              now rewrite Nat.sub_diag)).
        rewrite (DebugSqlizer_loop_placeholder fuel pre rest buf _ a Hpre Hesc Ha).
        destruct (IH rest ((buf ++ pre) ++ quoted Sprint_v a) (used ++ [a])%list rest_args)
          as (e & He & Hafter).
        { now rewrite <- app_assoc. }
        { lia. }
        rewrite last_length in He.
        exists e. split; [exact He|]. rewrite Hafter. cbv zeta.
        cbn [List.length]. change (S ?x <? S ?y)%nat with (x <? y)%nat.
        rewrite !append_assoc. reflexivity.
  - apply Index_token_None in E.
    rewrite (DebugSqlizer_loop_done fuel sql buf _ E).
    eexists. split; [reflexivity|].
    rewrite (placeholders_absent c sql E), (remainder_absent c sql sql _ E),
      (substitute_absent c Sprint_v sql _ E).
    cbn [after_loop]. rewrite Hargs, length_app.
    destruct rest_args as [|a rest_args]; cbn [List.length].
    + rewrite Nat.add_0_r, Nat.ltb_irrefl. reflexivity.
    + rewrite (proj2 (Nat.ltb_lt _ _)) by lia. reflexivity.
Qed.

(** The renderer of the code is the renderer of the specification: with a
    single-character token the rendering is the outcome that the number of
    placeholders and the number of arguments decide. *)
Lemma render_outcome (sql : string) :
  render Sprint_v token args sql = Some (Go.Normal (outcome Sprint_v c sql args)).
Proof.
  unfold render.
  destruct (DebugSqlizer_loop_outcome (S (String.length sql)) sql "" [] args eq_refl
              (Nat.lt_succ_diag_r _)) as (e & He & Hafter).
  cbn [List.length] in He. rewrite He, Hafter. reflexivity.
Qed.

End RendererProperties.

(** The fuel is enough whatever the placeholder is, a longer or an empty
    one included: every turn that goes on shortens the text. *)
Lemma length_drop (p : nat) (s : string) :
  String.length (drop p s) = String.length s - p.
Proof.
  revert s. induction p as [|p IH]; intros [|x s]; simpl; auto.
Qed.

Lemma DebugSqlizer_loop_total (Sprint_v : interface -> string) (placeholder : string)
  (args : list interface) (fuel : nat) :
  forall (sql buf : string) (i : nat),
    String.length sql < fuel ->
    DebugSqlizer_loop Sprint_v placeholder args fuel sql buf i <> None.
Proof.
  induction fuel as [|fuel IH]; intros sql buf i Hfuel; [lia|].
  cbn [DebugSqlizer_loop].
  destruct (strings.Index sql placeholder) as [p|]; [ | discriminate ].
  destruct ((1 <? String.length (drop p sql))%nat) eqn:Hlen; cbn [andb].
  - destruct (slice p (p + 2) sql =? "??")%string.
    + destruct (String.length (drop p sql) =? 1)%nat; [discriminate|].
      apply IH. apply Nat.ltb_lt in Hlen. rewrite length_drop in Hlen |- *. lia.
    + destruct (List.length args <? i + 1)%nat; [discriminate|].
      destruct (nth_error args i); [ | discriminate ].
      destruct (String.length sql <? p + 1)%nat eqn:Hb; [discriminate|].
      apply IH. apply Nat.ltb_ge in Hb. rewrite length_drop. lia.
  - destruct (List.length args <? i + 1)%nat; [discriminate|].
    destruct (nth_error args i); [ | discriminate ].
    destruct (String.length sql <? p + 1)%nat eqn:Hb; [discriminate|].
    apply IH. apply Nat.ltb_ge in Hb. rewrite length_drop. lia.
Qed.

Lemma render_total (Sprint_v : interface -> string) (placeholder : string)
  (args : list interface) (sql : string) :
  render Sprint_v placeholder args sql <> None.
Proof.
  unfold render.
  destruct (DebugSqlizer_loop Sprint_v placeholder args (S (String.length sql)) sql "" 0)
    as [[e|p]|] eqn:E; try discriminate.
  exfalso. revert E. apply DebugSqlizer_loop_total. apply Nat.lt_succ_diag_r.
Qed.

Section RemainderProperties.

Variable c : ascii.

(** The text carried by a failure is what is left of the query text. *)
Lemma remainder_suffix_gen (n : nat) :
  forall (text cursor mid : string) (k : nat),
    String.length text <= n ->
    cursor = mid ++ text ->
    exists done, cursor = done ++ remainder c cursor text k.
Proof.
  induction n as [|n IH]; intros text cursor mid k Hn Hcur.
  - destruct text; [ | simpl in Hn; lia ]. now exists EmptyString.
  - destruct text as [|x t]; [ now exists EmptyString | ].
    simpl in Hn. destruct (x =? c)%char eqn:E.
    + apply Ascii.eqb_eq in E as ->. rewrite remainder_token.
      destruct (starts_escape c t) eqn:Hesc.
      * destruct t as [|y t']; [discriminate Hesc|]. cbn [drop]. simpl in Hn.
        destruct (IH t' t' EmptyString k ltac:(lia) eq_refl) as (d & Hd).
        exists (mid ++ String c (String y d)). rewrite Hcur at 1. rewrite Hd at 1.
        rewrite !append_assoc. reflexivity.
      * destruct k as [|k']; [ now exists EmptyString | ].
        destruct (IH t t EmptyString k' ltac:(lia) eq_refl) as (d & Hd).
        exists (mid ++ String c d). rewrite Hcur at 1. rewrite Hd at 1.
        rewrite !append_assoc. reflexivity.
    + cbn [remainder]. rewrite E.
      apply (IH t cursor (mid ++ String x EmptyString) k ltac:(lia)).
      rewrite Hcur, append_assoc. reflexivity.
Qed.

Lemma remainder_suffix (sql : string) (k : nat) :
  exists done, sql = done ++ remainder c sql sql k.
Proof. exact (remainder_suffix_gen _ sql sql EmptyString k (le_n _) eq_refl). Qed.

(** It holds no token exactly when the arguments were enough for every
    placeholder: then the whole text has been scanned. *)
Lemma remainder_absent_gen (n : nat) :
  forall (text cursor mid : string) (k : nat),
    String.length text <= n ->
    cursor = mid ++ text ->
    absent c mid = true ->
    absent c (remainder c cursor text k) = (placeholders c text <=? k)%nat.
Proof.
  induction n as [|n IH]; intros text cursor mid k Hn Hcur Hmid.
  - destruct text; [ | simpl in Hn; lia ]. simpl.
    now rewrite Hcur, absent_append, Hmid.
  - destruct text as [|x t].
    { simpl. now rewrite Hcur, absent_append, Hmid. }
    simpl in Hn. destruct (x =? c)%char eqn:E.
    + apply Ascii.eqb_eq in E as ->. rewrite remainder_token, placeholders_token.
      destruct (starts_escape c t) eqn:Hesc.
      * assert (Hlen := length_drop_le 1 t).
        apply (IH (drop 1 t) (drop 1 t) EmptyString k ltac:(lia) eq_refl eq_refl).
      * destruct k as [|k'].
        -- rewrite Hcur, absent_append. cbn [absent]. rewrite Ascii.eqb_refl.
           simpl. now rewrite andb_false_r.
        -- apply (IH t t EmptyString k' ltac:(lia) eq_refl eq_refl).
    + cbn [remainder placeholders]. rewrite E.
      apply (IH t cursor (mid ++ String x EmptyString) k ltac:(lia)).
      * rewrite Hcur, append_assoc. reflexivity.
      * rewrite absent_append, Hmid. cbn [absent]. now rewrite E.
Qed.

Lemma remainder_scanned (sql : string) (k : nat) :
  absent c (remainder c sql sql k) = (placeholders c sql <=? k)%nat.
Proof. exact (remainder_absent_gen _ sql sql EmptyString k (le_n _) eq_refl eq_refl). Qed.

(** The escape is the pair [??]: no other token has one. *)
Lemma starts_escape_question_mark (rest : string) :
  starts_escape c rest = true -> c = "?"%char.
Proof.
  destruct rest as [|y t]; [discriminate|]. unfold starts_escape, is_escape.
  intros H. apply andb_true_iff in H as [H _]. now apply Ascii.eqb_eq.
Qed.

Lemma no_escape_for_other_tokens (rest : string) :
  c <> "?"%char -> starts_escape c rest = false.
Proof.
  intros N. destruct (starts_escape c rest) eqn:E; [ | reflexivity ].
  now apply starts_escape_question_mark in E.
Qed.

(** A placeholder takes the next argument, and what is around it stays. *)
Lemma substitute_placeholder (Sprint_v : interface -> string) (pre rest : string)
  (a : interface) (l : list interface) :
  absent c pre = true ->
  starts_escape c rest = false ->
  substitute Sprint_v c (pre ++ String c rest) (a :: l)
  = pre ++ quoted Sprint_v a ++ substitute Sprint_v c rest l.
Proof.
  intros Hpre Hesc. now rewrite substitute_skip, substitute_token, Hesc.
Qed.

(** With another token than [?], a doubled token is two placeholders and
    takes two arguments. *)
Lemma doubled_token_takes_two_arguments (Sprint_v : interface -> string)
  (pre rest : string) (a b : interface) :
  c <> "?"%char ->
  absent c pre = true ->
  absent c rest = true ->
  render Sprint_v (String c EmptyString) [a; b] (pre ++ String c (String c rest))
  = Some (Go.Normal (Rendered (pre ++ quoted Sprint_v a ++ quoted Sprint_v b ++ rest))).
Proof.
  intros N Hpre Hrest. rewrite render_outcome. unfold outcome.
  rewrite (placeholders_skip c pre _ Hpre), !placeholders_token.
  rewrite !(no_escape_for_other_tokens _ N), (placeholders_absent c rest Hrest).
  cbn [List.length Nat.ltb Nat.leb].
  rewrite (substitute_placeholder Sprint_v pre _ a [b] Hpre (no_escape_for_other_tokens _ N)).
  rewrite substitute_token, (no_escape_for_other_tokens _ N).
  now rewrite (substitute_absent c Sprint_v rest [] Hrest).
Qed.

End RemainderProperties.

(** C4.  With a single-character token [c], a text with exactly as many
    non-escaped occurrences of [c] as there are arguments is rendered, by
    the loop and so by [DebugSqlizer]: the result is the text in which each
    such occurrence, from left to right, stands replaced by the next
    argument in single quotes ([substitute], see [substitute_placeholder]),
    a [??] escape stands as one [?], and every other character is as it
    was ([substitute_skip], [substitute_absent]).  An occurrence is escaped
    when it begins a [??] pair. *)
Theorem DebugSqlizer_replaces_placeholders
  (Sprint_v : interface -> string) (Sprint_sharp_v : string -> string)
  (Sprint_err : error -> string) (c : ascii) (dbg : option string)
  (sql : string) (args : list interface) :
  match dbg with None => "?" | Some p => p end = String c EmptyString ->
  placeholders c sql = List.length args ->
  render Sprint_v (String c EmptyString) args sql
  = Some (Go.Normal (Rendered (substitute Sprint_v c sql args)))
  /\ DebugSqlizer Sprint_v Sprint_sharp_v Sprint_err
       {| ToSql := (sql, args, None); debugPlaceholder := dbg |}
     = Some (Go.Normal (substitute Sprint_v c sql args)).
Proof.
  intros Hdbg Hk.
  assert (Hr : render Sprint_v (String c EmptyString) args sql
               = Some (Go.Normal (Rendered (substitute Sprint_v c sql args)))).
  { rewrite render_outcome. unfold outcome. now rewrite Hk, Nat.ltb_irrefl. }
  split; [exact Hr|].
  unfold DebugSqlizer. cbn [ToSql debugPlaceholder]. now rewrite Hdbg, Hr.
Qed.

Lemma DebugSqlizer_replaces_placeholders_witness :
  match @None string with None => "?" | Some p => p end = String "?" EmptyString
  /\ placeholders "?" "x = ? AND y = ? AND z = '??'" = List.length [of_int 1; of_string "text"]
  /\ DebugSqlizer (Sprint (fun _ => "")) (fun s => s) (fun _ => "")
       {| ToSql := ("x = ? AND y = ? AND z = '??'", [of_int 1; of_string "text"], None);
          debugPlaceholder := None |}
     = Some (Go.Normal "x = '1' AND y = 'text' AND z = '?'").
Proof.
  split; [reflexivity | split; [reflexivity | ] ].
  exact (proj2 (DebugSqlizer_replaces_placeholders (Sprint (fun _ => "")) (fun s => s)
                  (fun _ => "") "?" None "x = ? AND y = ? AND z = '??'"
                  [of_int 1; of_string "text"] eq_refl eq_refl)).
Defined.

(** C5, as claimed, fails for another token than [?]: with the token [$]
    the doubled [$$] is no escape; its first character takes the argument
    and the second one is a placeholder too. *)
Lemma doubled_dollar_is_not_an_escape :
  render (Sprint (fun _ => "")) "$" [of_bool true] "SELECT $$ , $"
  = Some (Go.Normal (TooManyPlaceholders "$ , $" 1))
  /\ render (Sprint (fun _ => "")) "$" [of_bool true] "SELECT $$ , $"
     <> Some (Go.Normal (Rendered "SELECT $ , 'true'")).
Proof. split; [reflexivity | discriminate]. Qed.

(** C5, amended.  With the token [?], a doubled [??] whose first character
    is the next token of the text is an escape: the rendering is that of
    the text behind the pair, with the same arguments, and with the part
    before the pair and one [?] written in front of it; no argument is
    taken.  So [SELECT ?? , ?] with the argument [true] renders as
    [SELECT ? , 'true']. *)
Theorem question_mark_escape (Sprint_v other : interface -> string)
  (args : list interface) (pre rest : string) :
  absent "?" pre = true ->
  render Sprint_v "?" args (pre ++ "??" ++ rest)
  = emitted (pre ++ "?") (render Sprint_v "?" args rest)
  /\ placeholders "?" (pre ++ "??" ++ rest) = placeholders "?" rest
  /\ render (Sprint other) "?" [of_bool true] "SELECT ?? , ?"
     = Some (Go.Normal (Rendered "SELECT ? , 'true'")).
Proof.
  intros Hpre.
  assert (Hk : placeholders "?" (pre ++ "??" ++ rest) = placeholders "?" rest).
  { now rewrite (placeholders_skip "?" pre _ Hpre). }
  split; [ | split; [exact Hk | reflexivity] ].
  rewrite !render_outcome. unfold outcome. rewrite Hk.
  rewrite (remainder_skip "?" _ pre _ _ Hpre), (substitute_skip "?" Sprint_v pre _ _ Hpre).
  change ("??" ++ rest) with (String "?" (String "?" rest)).
  rewrite remainder_token, substitute_token.
  change (starts_escape "?" (String "?" rest)) with true. cbn [drop].
  destruct (List.length args <? placeholders "?" rest)%nat; [reflexivity|].
  destruct (placeholders "?" rest <? List.length args)%nat; [reflexivity|].
  cbn [emitted]. now rewrite append_assoc.
Qed.

Lemma question_mark_escape_witness :
  absent "?" "SELECT " = true
  /\ render (Sprint (fun _ => "")) "?" [of_bool true] ("SELECT " ++ "??" ++ " , ?")
     = emitted ("SELECT " ++ "?") (render (Sprint (fun _ => "")) "?" [of_bool true] " , ?").
Proof.
  split; [reflexivity|].
  exact (proj1 (question_mark_escape (Sprint (fun _ => "")) (fun _ => "")
                  [of_bool true] "SELECT " " , ?" eq_refl)).
Defined.

(** The failures of the specification's examples. *)
Example render_too_many (Sprint_v : interface -> string) :
  render Sprint_v "?" [] "a=?" = Some (Go.Normal (TooManyPlaceholders "a=?" 0)).
Proof. reflexivity. Qed.

Example render_not_enough (Sprint_v : interface -> string) :
  render Sprint_v "?" [of_int 5] "a=1" = Some (Go.Normal (NotEnoughPlaceholders "a=1" 1)).
Proof. reflexivity. Qed.

(** C6.  With [k] non-escaped placeholders in the text and [n] arguments,
    the rendering fails with TooManyPlaceholders exactly when [n < k], that
    is when a placeholder is reached and every argument is placed, and with
    NotEnoughPlaceholders exactly when [k < n], that is when arguments are
    left after the scan; otherwise it succeeds.  Either failure carries the
    number of arguments and the text left at the cursor, which is the end
    part of the query text.  That text still holds a token in the first
    failure and holds none in the second: NotEnoughPlaceholders is only
    decided once the scan has gone through the whole text. *)
Theorem render_failures (Sprint_v : interface -> string) (c : ascii)
  (sql : string) (args : list interface) :
  let k := placeholders c sql in
  let n := List.length args in
  render Sprint_v (String c EmptyString) args sql
  = Some (Go.Normal
            (if (n <? k)%nat then TooManyPlaceholders (remainder c sql sql n) n
             else if (k <? n)%nat then NotEnoughPlaceholders (remainder c sql sql n) n
                  else Rendered (substitute Sprint_v c sql args)))
  /\ (exists done, sql = done ++ remainder c sql sql n)
  /\ absent c (remainder c sql sql n) = (k <=? n)%nat.
Proof.
  cbv zeta. split; [apply render_outcome|].
  split; [apply remainder_suffix | apply remainder_scanned].
Qed.

(** ** The examples of the specification *)

Example castArgToYQL_int64 :
  castArgToYQL (of_int64 7) = Go.Normal ([types.Int64Value 7], None).
Proof. reflexivity. Qed.

Example castArgToYQL_nil_int64_pointer :
  castArgToYQL (of_ptr_int64 None) = Go.Normal ([types.NullValue types.TypeInt64], None).
Proof. reflexivity. Qed.

Example castArgToYQL_struct :
  castArgToYQL (of_other "struct {}")
  = Go.Normal ([], Some (UnsupportedType (Tnamed "struct {}"))).
Proof. reflexivity. Qed.

Example prepareYQLString_one (Yql : types.Type_ -> string) :
  prepareYQLString Yql "SELECT $p1" [of_Value (types.Int64Value 7)]
  = ("DECLARE $p1 AS " ++ Yql types.TypeInt64 ++ ";" ++ Go.newline ++ "SELECT $p1", None).
Proof.
  unfold prepareYQLString. cbn [prepareYQLString_loop]. cbn [Nat.add].
  change (Go.itoa 1) with "1". cbn [append].
  now rewrite !append_assoc.
Qed.

Example prepareYQLParams_one :
  prepareYQLParams [of_Value (types.Int64Value 7)]
  = ([table.ValueParam "p1" (types.Int64Value 7)], None).
Proof. reflexivity. Qed.

(** * Further properties *)

(** ** The single-value cast *)

(** The outcomes of [castArgToYQL], arm by arm. *)
Lemma castArgToYQL_outcomes (arg : interface) :
  castArgToYQL arg = Go.Panic Go.NilDereference
  \/ castArgToYQL arg = Go.Normal ([], Some (UnsupportedType (TypeOf arg)))
  \/ exists v, castArgToYQL arg = Go.Normal ([v], None) /\ flat v = true.
Proof.
  destruct arg as [ | p | | p | | p | | p | | p | | p | | p | | p | | p | | p | | p
                  | | p | | p | | p | | | p | t | | ];
    try (destruct p);
    try (destruct t);
    first [ left; reflexivity
          | right; left; reflexivity
          | right; right; eexists; split; reflexivity ].
Qed.

(** X1.  [castArgToYQL] has three ways out: it panics with a nil
    dereference, it returns no value and the unsupported-type error that
    names the type of the argument, or it returns exactly one value and no
    error, and that value is flat: a present primitive or a nullable
    primitive, never an optional of an optional. *)
Theorem castArgToYQL_ways_out (arg : interface) :
  castArgToYQL arg = Go.Panic Go.NilDereference
  \/ castArgToYQL arg = Go.Normal ([], Some (UnsupportedType (TypeOf arg)))
  \/ exists v, castArgToYQL arg = Go.Normal ([v], None) /\ flat v = true.
Proof. exact (castArgToYQL_outcomes arg). Qed.

(** X2.  It panics for a nil [*int] and a nil [*uint] and for no other
    argument. *)
Theorem castArgToYQL_panics_iff (arg : interface) :
  (exists p, castArgToYQL arg = Go.Panic p)
  <-> arg = of_ptr_int None \/ arg = of_ptr_uint None.
Proof.
  split.
  - intros [p H].
    destruct arg as [ | q | | q | | q | | q | | q | | q | | q | | q | | q | | q | | q
                    | | q | | q | | q | | | q | t | | ];
      try (destruct q); try (destruct t); try discriminate H; auto.
  - intros [-> | ->]; eexists; reflexivity.
Qed.

(** X3.  It returns the unsupported-type error for a value that is typed
    already and for a value of a type without an arm, and for no other
    argument. *)
Theorem castArgToYQL_error_iff (arg : interface) :
  (exists vs e, castArgToYQL arg = Go.Normal (vs, Some e))
  <-> (exists v, arg = of_Value v) \/ (exists name, arg = of_other name).
Proof.
  split.
  - intros (vs & e & H).
    destruct arg as [ | q | | q | | q | | q | | q | | q | | q | | q | | q | | q | | q
                    | | q | | q | | q | | | q | t | v | name ];
      try (destruct q); try (destruct t); try discriminate H; eauto.
  - intros [[v ->] | [name ->]]; do 2 eexists; reflexivity.
Qed.

(** X4.  A pointer that points at something casts to the optional of what
    the pointee casts to; this holds for [*int] and [*uint] too, whose
    pointee is widened first. *)
Theorem castArgToYQL_pointer_is_optional_of_pointee (arg a : interface) :
  pointee arg = Some a ->
  exists v,
    castArgToYQL a = Go.Normal ([v], None)
    /\ castArgToYQL arg = Go.Normal ([types.OptionalValue v], None).
Proof.
  intros H.
  destruct arg as [ | q | | q | | q | | q | | q | | q | | q | | q | | q | | q | | q
                  | | q | | q | | q | | | q | t | v | name ];
    try discriminate H;
    destruct q as [x|]; try discriminate H;
    injection H as <-; eexists; split; reflexivity.
Qed.

Lemma castArgToYQL_pointer_is_optional_of_pointee_witness :
  pointee (of_ptr_int (Some 7%Z)) = Some (of_int 7)
  /\ exists v,
      castArgToYQL (of_int 7) = Go.Normal ([v], None)
      /\ castArgToYQL (of_ptr_int (Some 7%Z)) = Go.Normal ([types.OptionalValue v], None).
Proof.
  split; [reflexivity|].
  exact (castArgToYQL_pointer_is_optional_of_pointee
           (of_ptr_int (Some 7%Z)) (of_int 7) eq_refl).
Defined.

(** The YQL type that the cast gives to a Go type; the JSON byte sequence
    is the one Go type with two. *)
Lemma castArgToYQL_type_of_rtype (a : interface) (v : types.Value) :
  castArgToYQL a = Go.Normal ([v], None) ->
  match TypeOf a with
  | Tbool => types.TypeOf v = types.TypeBool
  | Tint | Tint64 => types.TypeOf v = types.TypeInt64
  | Tint8 => types.TypeOf v = types.TypeInt8
  | Tint16 => types.TypeOf v = types.TypeInt16
  | Tint32 => types.TypeOf v = types.TypeInt32
  | Tuint | Tuint64 => types.TypeOf v = types.TypeUint64
  | Tuint8 => types.TypeOf v = types.TypeUint8
  | Tuint16 => types.TypeOf v = types.TypeUint16
  | Tuint32 => types.TypeOf v = types.TypeUint32
  | Tfloat32 => types.TypeOf v = types.TypeFloat
  | Tfloat64 => types.TypeOf v = types.TypeDouble
  | Tstring => types.TypeOf v = types.TypeText
  | Tbytes => types.TypeOf v = types.TypeBytes
  | TTime => types.TypeOf v = types.TypeTimestamp
  | Tptr Tbool => types.TypeOf v = types.Optional types.TypeBool
  | Tptr Tint | Tptr Tint64 => types.TypeOf v = types.Optional types.TypeInt64
  | Tptr Tint8 => types.TypeOf v = types.Optional types.TypeInt8
  | Tptr Tint16 => types.TypeOf v = types.Optional types.TypeInt16
  | Tptr Tint32 => types.TypeOf v = types.Optional types.TypeInt32
  | Tptr Tuint | Tptr Tuint64 => types.TypeOf v = types.Optional types.TypeUint64
  | Tptr Tuint8 => types.TypeOf v = types.Optional types.TypeUint8
  | Tptr Tuint16 => types.TypeOf v = types.Optional types.TypeUint16
  | Tptr Tuint32 => types.TypeOf v = types.Optional types.TypeUint32
  | Tptr Tfloat32 => types.TypeOf v = types.Optional types.TypeFloat
  | Tptr Tfloat64 => types.TypeOf v = types.Optional types.TypeDouble
  | Tptr Tstring => types.TypeOf v = types.Optional types.TypeText
  | Tptr TTime => types.TypeOf v = types.Optional types.TypeTimestamp
  | _ => True
  end.
Proof.
  intros H.
  destruct a as [ | q | | q | | q | | q | | q | | q | | q | | q | | q | | q | | q
                | | q | | q | | q | | | q | t | w | name ];
    try (destruct q); try (destruct t); cbn [TypeOf];
    try discriminate H; try exact I;
    simpl in H; injection H as <-; reflexivity.
Qed.

(** X5.  Apart from the JSON byte sequence, the YQL type of the value
    depends on the Go type of the argument alone: two arguments of one Go
    type that both cast give values of one YQL type, whatever they hold
    and whether a pointer is nil or not. *)
Theorem castArgToYQL_type_by_go_type (a b : interface) (v w : types.Value) :
  TypeOf a = TypeOf b ->
  TypeOf a <> TRawMessage ->
  castArgToYQL a = Go.Normal ([v], None) ->
  castArgToYQL b = Go.Normal ([w], None) ->
  types.TypeOf v = types.TypeOf w.
Proof.
  intros Hab Hjson Ha Hb.
  assert (Ta := castArgToYQL_type_of_rtype a v Ha).
  assert (Tb := castArgToYQL_type_of_rtype b w Hb).
  rewrite <- Hab in Tb.
  destruct (TypeOf a) as [ | | | | | | | | | | | | | | | | | t | | name ] eqn:E;
    try congruence.
  - destruct t; try congruence;
      destruct a as [ | q | | q | | q | | q | | q | | q | | q | | q | | q | | q | | q
                    | | q | | q | | q | | | q | t' | w' | name' ];
      discriminate E.
  - destruct a; try discriminate E; discriminate Ha.
  - destruct a; try discriminate E; discriminate Ha.
Qed.

Lemma castArgToYQL_type_by_go_type_witness :
  TypeOf (of_ptr_int64 None) = TypeOf (of_ptr_int64 (Some 3%Z))
  /\ TypeOf (of_ptr_int64 None) <> TRawMessage
  /\ types.TypeOf (types.NullValue types.TypeInt64)
     = types.TypeOf (types.OptionalValue (types.Int64Value 3)).
Proof.
  split; [reflexivity | split; [discriminate | ] ].
  exact (castArgToYQL_type_by_go_type (of_ptr_int64 None) (of_ptr_int64 (Some 3%Z))
           (types.NullValue types.TypeInt64) (types.OptionalValue (types.Int64Value 3))
           eq_refl ltac:(discriminate) eq_refl eq_refl).
Defined.

(** ** The list cast *)

(** One turn of the loop for an argument that is not typed. *)
Lemma castArgsToYQL_loop_untyped (a : interface) (rest acc : list interface) :
  is_Value a = false ->
  castArgsToYQL_loop (a :: rest) acc
  = (r <- castArgToYQL a ;;
     match r with
     | (_, Some err) => Go.Normal ([], Some (Wrapped "castArgToYQL" err))
     | (castedYQLArgs, None) =>
         castArgsToYQL_loop rest (acc ++ map of_Value castedYQLArgs)%list
     end).
Proof. destruct a; intros H; try discriminate H; reflexivity. Qed.

Lemma cast_of_untyped (a o : interface) :
  is_Value a = false ->
  (cast_of a o <-> exists v, castArgToYQL a = Go.Normal ([v], None) /\ o = of_Value v).
Proof. destruct a; intros H; try discriminate H; reflexivity. Qed.

Lemma castArgsToYQL_loop_positional (args : list interface) :
  forall acc out,
    castArgsToYQL_loop args acc = Go.Normal (out, None) ->
    exists out', out = (acc ++ out')%list /\ Forall2 cast_of args out'.
Proof.
  induction args as [|a args IH]; intros acc out H.
  - simpl in H. injection H as <-. exists []. now rewrite app_nil_r.
  - destruct (is_Value a) eqn:Ea.
    + destruct a; try discriminate Ea. cbn [castArgsToYQL_loop] in H.
      destruct (IH _ _ H) as (o & -> & Ho).
      exists (of_Value v :: o). rewrite <- app_assoc. split; [reflexivity|].
      constructor; [reflexivity | exact Ho].
    + rewrite (castArgsToYQL_loop_untyped a args acc Ea) in H.
      destruct (castArgToYQL_outcomes a) as [E | [E | (v & E & _)]];
        rewrite E in H; cbn [Go.bind] in H; try discriminate H.
      cbn [map] in H. destruct (IH _ _ H) as (o & -> & Ho).
      exists (of_Value v :: o). rewrite <- app_assoc. split; [reflexivity|].
      constructor; [ | exact Ho ].
      apply (cast_of_untyped a _ Ea). now exists v.
Qed.

(** X6.  When the list cast returns without an error, its output has one
    element for each argument, in the order of the arguments: a typed
    argument itself, and for any other argument the one value that the
    single-value cast returns for it. *)
Theorem castArgsToYQL_positional (args out : list interface) :
  castArgsToYQL args = Go.Normal (out, None) ->
  Forall2 cast_of args out /\ List.length out = List.length args.
Proof.
  intros H.
  assert (F : Forall2 cast_of args out).
  { unfold castArgsToYQL in H. destruct args as [|a args].
    - simpl in H. injection H as <-. constructor.
    - cbn [List.length Nat.eqb] in H.
      destruct (castArgsToYQL_loop_positional _ _ _ H) as (o & -> & Ho). exact Ho. }
  split; [exact F | symmetry; exact (Forall2_length F)].
Qed.

Lemma castArgsToYQL_positional_witness :
  castArgsToYQL [of_int 7; of_Value (types.BoolValue true); of_ptr_string None]
  = Go.Normal ([of_Value (types.Int64Value 7); of_Value (types.BoolValue true);
                of_Value (types.NullValue types.TypeText)], None)
  /\ List.length [of_Value (types.Int64Value 7); of_Value (types.BoolValue true);
                  of_Value (types.NullValue types.TypeText)]
     = List.length [of_int 7; of_Value (types.BoolValue true); of_ptr_string None].
Proof.
  split; [reflexivity|].
  exact (proj2 (castArgsToYQL_positional
                  [of_int 7; of_Value (types.BoolValue true); of_ptr_string None]
                  [of_Value (types.Int64Value 7); of_Value (types.BoolValue true);
                   of_Value (types.NullValue types.TypeText)] eq_refl)).
Defined.

(** Arguments that cast are gone through; the loop goes on with what
    follows them. *)
Lemma castArgsToYQL_loop_casts (pre : list interface) :
  forall acc rest,
    forallb casts pre = true ->
    exists o,
      castArgsToYQL_loop (pre ++ rest) acc = castArgsToYQL_loop rest (acc ++ o)%list.
Proof.
  induction pre as [|a pre IH]; intros acc rest H.
  - exists []. now rewrite app_nil_r.
  - cbn [forallb] in H. apply andb_true_iff in H as [Ha Hpre].
    cbn [app]. destruct (is_Value a) eqn:Ea.
    + destruct a; try discriminate Ea. cbn [castArgsToYQL_loop].
      destruct (IH (acc ++ [of_Value v])%list rest Hpre) as (o & Ho).
      exists (of_Value v :: o). rewrite Ho, <- app_assoc. reflexivity.
    + rewrite (castArgsToYQL_loop_untyped a _ acc Ea).
      unfold casts in Ha. rewrite Ea in Ha. cbn [orb] in Ha.
      destruct (castArgToYQL a) as [[c [e|]]|p]; try discriminate Ha.
      cbn [Go.bind].
      destruct (IH (acc ++ map of_Value c)%list rest Hpre) as (o & Ho).
      exists (map of_Value c ++ o)%list. rewrite Ho, <- app_assoc. reflexivity.
Qed.

Lemma castArgsToYQL_nonempty (pre : list interface) (a : interface) (rest : list interface) :
  castArgsToYQL (pre ++ a :: rest) = castArgsToYQL_loop (pre ++ a :: rest) [].
Proof.
  unfold castArgsToYQL. rewrite length_app. cbn [List.length].
  rewrite Nat.add_succ_r. reflexivity.
Qed.

(** X7.  The first argument that the single-value cast rejects decides the
    list cast: its error comes back wrapped with the name of the stage,
    with no values at all, whatever was cast before it and whatever
    follows it. *)
Theorem castArgsToYQL_first_error (pre rest : list interface) (a : interface)
  (vs : list types.Value) (e : error) :
  forallb casts pre = true ->
  is_Value a = false ->
  castArgToYQL a = Go.Normal (vs, Some e) ->
  castArgsToYQL (pre ++ a :: rest) = Go.Normal ([], Some (Wrapped "castArgToYQL" e)).
Proof.
  intros Hpre Ha He. rewrite castArgsToYQL_nonempty.
  destruct (castArgsToYQL_loop_casts pre [] (a :: rest) Hpre) as (o & ->).
  rewrite (castArgsToYQL_loop_untyped a rest _ Ha), He. reflexivity.
Qed.

Lemma castArgsToYQL_first_error_witness :
  forallb casts [of_int 1; of_Value (types.BoolValue true)] = true
  /\ is_Value (of_other "struct {}") = false
  /\ castArgsToYQL ([of_int 1; of_Value (types.BoolValue true)]
                      ++ of_other "struct {}" :: [of_ptr_int None])
     = Go.Normal ([], Some (Wrapped "castArgToYQL" (UnsupportedType (Tnamed "struct {}")))).
Proof.
  split; [reflexivity | split; [reflexivity | ] ].
  exact (castArgsToYQL_first_error [of_int 1; of_Value (types.BoolValue true)]
           [of_ptr_int None] (of_other "struct {}") []
           (UnsupportedType (Tnamed "struct {}")) eq_refl eq_refl eq_refl).
Defined.

(** X8.  A panic of the single-value cast is a panic of the list cast: a
    nil [*int] or [*uint] among the arguments, with nothing rejected
    before it, stops the whole cast. *)
Theorem castArgsToYQL_first_panic (pre rest : list interface) (a : interface)
  (p : Go.runtime_error) :
  forallb casts pre = true ->
  castArgToYQL a = Go.Panic p ->
  castArgsToYQL (pre ++ a :: rest) = Go.Panic p.
Proof.
  intros Hpre Hp. rewrite castArgsToYQL_nonempty.
  destruct (castArgsToYQL_loop_casts pre [] (a :: rest) Hpre) as (o & ->).
  assert (Ha : is_Value a = false) by (destruct a; try reflexivity; discriminate Hp).
  rewrite (castArgsToYQL_loop_untyped a rest _ Ha), Hp. reflexivity.
Qed.

Lemma castArgsToYQL_first_panic_witness :
  forallb casts [of_string "a"] = true
  /\ castArgToYQL (of_ptr_uint None) = Go.Panic Go.NilDereference
  /\ castArgsToYQL ([of_string "a"] ++ of_ptr_uint None :: [of_int 2])
     = Go.Panic Go.NilDereference.
Proof.
  split; [reflexivity | split; [reflexivity | ] ].
  exact (castArgsToYQL_first_panic [of_string "a"] [of_int 2] (of_ptr_uint None)
           Go.NilDereference eq_refl eq_refl).
Defined.

(** X9.  The list cast is idempotent on its own output: what it returned
    without an error it returns again, unchanged, when it is given it. *)
Theorem castArgsToYQL_twice (args out : list interface) :
  castArgsToYQL args = Go.Normal (out, None) ->
  castArgsToYQL out = Go.Normal (out, None).
Proof.
  unfold castArgsToYQL at 1. intros H.
  assert (Hall : forallb is_Value out = true).
  { destruct (Nat.eqb (List.length args) 0).
    - now injection H as <-.
    - now apply (castArgsToYQL_loop_all_typed args [] out). }
  rewrite (all_typed_map out Hall). apply castArgsToYQL_typed_list.
Qed.

Lemma castArgsToYQL_twice_witness :
  castArgsToYQL [of_int 7; of_RawMessage None]
  = Go.Normal ([of_Value (types.Int64Value 7);
                of_Value (types.NullValue types.TypeJSON)], None)
  /\ castArgsToYQL [of_Value (types.Int64Value 7);
                    of_Value (types.NullValue types.TypeJSON)]
     = Go.Normal ([of_Value (types.Int64Value 7);
                   of_Value (types.NullValue types.TypeJSON)], None).
Proof.
  split; [reflexivity|].
  exact (castArgsToYQL_twice [of_int 7; of_RawMessage None]
           [of_Value (types.Int64Value 7); of_Value (types.NullValue types.TypeJSON)]
           eq_refl).
Defined.

(** ** The assembler *)

Lemma first_untyped_typed (vs : list types.Value) :
  first_untyped (map of_Value vs) = None.
Proof. unfold first_untyped. induction vs as [|v vs IH]; simpl; auto. Qed.

Lemma typed_values_typed (vs : list types.Value) :
  typed_values (map of_Value vs) = vs.
Proof.
  unfold typed_values. induction vs as [|v vs IH]; simpl; [reflexivity | now rewrite IH].
Qed.

Lemma castArgsToYQL_all_typed (args out : list interface) :
  castArgsToYQL args = Go.Normal (out, None) -> forallb is_Value out = true.
Proof.
  unfold castArgsToYQL. intros H. destruct (Nat.eqb (List.length args) 0).
  - now injection H as <-.
  - now apply (castArgsToYQL_loop_all_typed args [] out).
Qed.

Lemma castArgsToYQL_length (args out : list interface) :
  castArgsToYQL args = Go.Normal (out, None) -> List.length out = List.length args.
Proof.
  unfold castArgsToYQL. intros H. destruct args as [|a args].
  - simpl in H. now injection H as <-.
  - cbn [List.length Nat.eqb] in H.
    destruct (castArgsToYQL_loop_positional _ _ _ H) as (o & -> & Ho).
    symmetry. exact (Forall2_length Ho).
Qed.

Lemma numbered_length (i : nat) (vs : list types.Value) :
  List.length (numbered i vs) = List.length vs.
Proof. now rewrite <- (length_map table.value), numbered_values. Qed.

(** X10.  What the list cast returns without an error the assembler always
    accepts: both [prepareYQLParams] and [prepareYQLString] succeed on it,
    with one binding per original argument, and the bindings hold the cast
    values in order. *)
Theorem cast_then_prepare (Yql : types.Type_ -> string) (sql : string)
  (args out : list interface) :
  castArgsToYQL args = Go.Normal (out, None) ->
  exists yqlArgs text,
    prepareYQLParams out = (yqlArgs, None)
    /\ prepareYQLString Yql sql out = (text, None)
    /\ List.length yqlArgs = List.length args
    /\ map (fun p => of_Value (table.value p)) yqlArgs = out.
Proof.
  intros H.
  assert (Hout := all_typed_map out (castArgsToYQL_all_typed args out H)).
  assert (Hlen := castArgsToYQL_length args out H).
  revert Hlen. rewrite Hout. generalize (typed_values out) as vs. intros vs Hlen.
  rewrite prepareYQLParams_spec, prepareYQLString_spec.
  rewrite first_untyped_typed, typed_values_typed.
  do 2 eexists. repeat split.
  - rewrite numbered_length. now rewrite length_map in Hlen.
  - now rewrite <- map_map, numbered_values.
Qed.

Lemma cast_then_prepare_witness :
  castArgsToYQL [of_int 7; of_ptr_bool None]
  = Go.Normal ([of_Value (types.Int64Value 7);
                of_Value (types.NullValue types.TypeBool)], None)
  /\ exists yqlArgs text,
      prepareYQLParams [of_Value (types.Int64Value 7);
                        of_Value (types.NullValue types.TypeBool)] = (yqlArgs, None)
      /\ prepareYQLString (fun _ => "T") "SELECT 1"
           [of_Value (types.Int64Value 7); of_Value (types.NullValue types.TypeBool)]
         = (text, None)
      /\ List.length yqlArgs = List.length [of_int 7; of_ptr_bool None]
      /\ map (fun p => of_Value (table.value p)) yqlArgs
         = [of_Value (types.Int64Value 7); of_Value (types.NullValue types.TypeBool)].
Proof.
  split; [reflexivity|].
  exact (cast_then_prepare (fun _ => "T") "SELECT 1" [of_int 7; of_ptr_bool None]
           [of_Value (types.Int64Value 7); of_Value (types.NullValue types.TypeBool)]
           eq_refl).
Defined.

Lemma prepareYQLParams_success (args : list interface) (yqlArgs : list table.ParameterOption) :
  prepareYQLParams args = (yqlArgs, None) ->
  first_untyped args = None /\ yqlArgs = numbered 0 (typed_values args).
Proof.
  rewrite prepareYQLParams_spec. destruct (first_untyped args); intros H.
  - discriminate H.
  - now injection H as <-.
Qed.

(** X11.  No two bindings that [prepareYQLParams] returns share a name. *)
Theorem prepareYQLParams_names_distinct (args : list interface)
  (yqlArgs : list table.ParameterOption) :
  prepareYQLParams args = (yqlArgs, None) ->
  NoDup (map table.name yqlArgs).
Proof.
  intros H. apply prepareYQLParams_success in H as [_ ->].
  rewrite numbered_names.
  apply Injective_map_NoDup; [ | apply seq_NoDup ].
  intros a b E. injection E as E. now apply itoa_inj.
Qed.

Lemma prepareYQLParams_names_distinct_witness :
  NoDup (map table.name
           [table.ValueParam "p1" (types.Int64Value 7);
            table.ValueParam "p2" (types.Int64Value 7)]).
Proof.
  exact (prepareYQLParams_names_distinct
           [of_Value (types.Int64Value 7); of_Value (types.Int64Value 7)]
           [table.ValueParam "p1" (types.Int64Value 7);
            table.ValueParam "p2" (types.Int64Value 7)] eq_refl).
Defined.





(** ** The renderer, whatever the placeholder *)

Lemma prefix_length (a b : string) :
  prefix a b = true -> String.length a <= String.length b.
Proof.
  revert a. induction b as [|y b IH]; intros [|x a]; simpl; intros H;
    try lia; try discriminate H.
  destruct (ascii_dec x y); [ | discriminate H ]. specialize (IH a H). lia.
Qed.

(** Where [strings.Index] finds the placeholder, it fits into the text. *)
Lemma Index_bound (s sub : string) (p : nat) :
  strings.Index s sub = Some p -> p + String.length sub <= String.length s.
Proof.
  revert p. induction s as [|x s IH]; intros p; cbn [strings.Index].
  - destruct (prefix sub "") eqn:E; [ | discriminate ].
    intros [= <-]. now apply prefix_length in E.
  - destruct (prefix sub (String x s)) eqn:E.
    + intros [= <-]. now apply prefix_length in E.
    + destruct (strings.Index s sub) as [q|]; [ | discriminate ].
      intros [= <-]. specialize (IH q eq_refl). simpl. lia.
Qed.

Lemma Index_empty (s : string) : strings.Index s "" = Some 0.
Proof. now destruct s. Qed.

(** X13.  The loop of [DebugSqlizer] comes to an end for every text, every
    argument list and every placeholder, the empty one and longer ones
    included: the fuel of the model is never used up. *)
Theorem DebugSqlizer_terminates (Sprint_v : interface -> string)
  (Sprint_sharp_v : string -> string) (Sprint_err : error -> string)
  (placeholder : string) (args : list interface) (sql : string) (s : Sqlizer) :
  (exists r, render Sprint_v placeholder args sql = Some r)
  /\ (exists r, DebugSqlizer Sprint_v Sprint_sharp_v Sprint_err s = Some r).
Proof.
  assert (R : forall ph l t, exists r, render Sprint_v ph l t = Some r).
  { intros ph l t. unfold render.
    destruct (DebugSqlizer_loop Sprint_v ph l (S (String.length t)) t "" 0)
      as [[e|p]|] eqn:E; try (eexists; reflexivity).
    exfalso. revert E. apply DebugSqlizer_loop_total. apply Nat.lt_succ_diag_r. }
  split; [apply R|].
  unfold DebugSqlizer. destruct (ToSql s) as [[t l] [e|]]; [eexists; reflexivity|].
  destruct (R (match debugPlaceholder s with None => "?" | Some p => p end) l t)
    as ([r|p] & ->); eexists; reflexivity.
Qed.

(** With a placeholder that is not empty no turn of the loop panics: the
    index into the arguments is tested before it is used, and the cursor
    moves to a position inside the text. *)
Lemma DebugSqlizer_loop_no_panic (Sprint_v : interface -> string) (placeholder : string)
  (args : list interface) (fuel : nat) :
  placeholder <> EmptyString ->
  forall (sql buf : string) (i : nat) (p : Go.runtime_error),
    DebugSqlizer_loop Sprint_v placeholder args fuel sql buf i <> Some (Go.Panic p).
Proof.
  intros Hne. induction fuel as [|fuel IH]; intros sql buf i q; [discriminate|].
  cbn [DebugSqlizer_loop].
  destruct (strings.Index sql placeholder) as [p|] eqn:E; [ | discriminate ].
  apply Index_bound in E.
  assert (0 < String.length placeholder) by (destruct placeholder; simpl; [congruence | lia]).
  destruct ((1 <? String.length (drop p sql))%nat && (slice p (p + 2) sql =? "??")%string).
  - destruct (String.length (drop p sql) =? 1)%nat; [discriminate | apply IH].
  - destruct (List.length args <? i + 1)%nat eqn:Hi; [discriminate|].
    apply Nat.ltb_ge in Hi.
    destruct (nth_error args i) eqn:Ha.
    + rewrite (proj2 (Nat.ltb_ge _ _)) by lia. apply IH.
    + apply nth_error_None in Ha. lia.
Qed.

(** X14.  [DebugSqlizer] always returns a string when the query object is
    no [placeholderDebugger] or its placeholder is not empty: it does not
    panic, whatever the text and however many arguments there are. *)
Theorem DebugSqlizer_returns (Sprint_v : interface -> string)
  (Sprint_sharp_v : string -> string) (Sprint_err : error -> string) (s : Sqlizer) :
  match debugPlaceholder s with
  | Some p => negb (p =? "")%string
  | None => true
  end = true ->
  exists text, DebugSqlizer Sprint_v Sprint_sharp_v Sprint_err s = Some (Go.Normal text).
Proof.
  intros H. unfold DebugSqlizer.
  destruct (ToSql s) as [[t l] [e|]]; [eexists; reflexivity|].
  set (ph := match debugPlaceholder s with None => "?" | Some p => p end).
  assert (Hne : ph <> EmptyString).
  { unfold ph. destruct (debugPlaceholder s) as [p|]; [ | discriminate ].
    apply negb_true_iff, String.eqb_neq in H. exact H. }
  unfold render.
  destruct (DebugSqlizer_loop Sprint_v ph l (S (String.length t)) t "" 0)
    as [[e|p]|] eqn:E.
  - eexists; reflexivity.
  - exfalso. exact (DebugSqlizer_loop_no_panic Sprint_v ph l _ Hne _ _ _ _ E).
  - exfalso. revert E. apply DebugSqlizer_loop_total. apply Nat.lt_succ_diag_r.
Qed.

Lemma DebugSqlizer_returns_witness :
  match debugPlaceholder {| ToSql := ("a = @p1", [], None); debugPlaceholder := Some "@p" |} with
  | Some p => negb (p =? "")%string
  | None => true
  end = true
  /\ exists text,
      DebugSqlizer (Sprint (fun _ => "")) (fun t => t) (fun _ => "")
        {| ToSql := ("a = @p1", [], None); debugPlaceholder := Some "@p" |}
      = Some (Go.Normal text).
Proof.
  split; [reflexivity|].
  exact (DebugSqlizer_returns (Sprint (fun _ => "")) (fun t => t) (fun _ => "")
           {| ToSql := ("a = @p1", [], None); debugPlaceholder := Some "@p" |} eq_refl).
Defined.

(** With the empty placeholder, found at the cursor in every turn, the loop
    is never left through [break]. *)
Lemma DebugSqlizer_loop_empty_placeholder (Sprint_v : interface -> string)
  (args : list interface) (fuel : nat) :
  forall (sql buf : string) (i : nat),
    String.length sql < fuel ->
    DebugSqlizer_loop Sprint_v "" args fuel sql buf i
    = Some (Go.Panic Go.SliceBoundsOutOfRange)
    \/ exists rest,
        DebugSqlizer_loop Sprint_v "" args fuel sql buf i
        = Some (Go.Normal (ReturnTooMany rest)).
Proof.
  induction fuel as [|fuel IH]; intros sql buf i Hfuel; [lia|].
  cbn [DebugSqlizer_loop]. rewrite Index_empty. cbn [drop].
  destruct ((1 <? String.length sql)%nat) eqn:Hlen; cbn [andb].
  - destruct (slice 0 (0 + 2) sql =? "??")%string.
    + apply Nat.ltb_lt in Hlen.
      rewrite (proj2 (Nat.eqb_neq _ _)) by lia.
      apply IH. rewrite length_drop. lia.
    + destruct (List.length args <? i + 1)%nat eqn:Hi; [right; eexists; reflexivity|].
      apply Nat.ltb_ge in Hi.
      destruct (nth_error args i) eqn:Ha; [ | apply nth_error_None in Ha; lia ].
      destruct (String.length sql <? 0 + 1)%nat eqn:Hb; [now left|].
      apply IH. apply Nat.ltb_ge in Hb. rewrite length_drop. lia.
  - destruct (List.length args <? i + 1)%nat eqn:Hi; [right; eexists; reflexivity|].
    apply Nat.ltb_ge in Hi.
    destruct (nth_error args i) eqn:Ha; [ | apply nth_error_None in Ha; lia ].
    destruct (String.length sql <? 0 + 1)%nat eqn:Hb; [now left|].
    apply IH. apply Nat.ltb_ge in Hb. rewrite length_drop. lia.
Qed.

(** X15.  With the empty placeholder nothing is ever rendered: whatever the
    text and the arguments, the function reports too many placeholders or
    panics on the slice of a text that is used up. *)
Theorem render_empty_placeholder (Sprint_v : interface -> string)
  (args : list interface) (sql : string) :
  render Sprint_v "" args sql = Some (Go.Panic Go.SliceBoundsOutOfRange)
  \/ exists rest,
      render Sprint_v "" args sql
      = Some (Go.Normal (TooManyPlaceholders rest (List.length args))).
Proof.
  unfold render.
  destruct (DebugSqlizer_loop_empty_placeholder Sprint_v args (S (String.length sql))
              sql "" 0 (Nat.lt_succ_diag_r _)) as [-> | (rest & ->)].
  - now left.
  - right. now exists rest.
Qed.

(** ** Rendering a text given by its fragments *)

Section Fragments.

Variable Sprint_v : interface -> string.
Variable c : ascii.

(** The text made of a first fragment and then, for each further fragment,
    the token and the fragment; and the same with the quoted arguments in
    the places of the tokens. *)
Local Abbreviation joined f0 fs := (f0 ++ concat_lines (map (String c) fs)).
Local Abbreviation filled f0 l fs :=
  (f0 ++ concat_lines (map (fun af => quoted Sprint_v (fst af) ++ snd af) (combine l fs))).

(** No token is doubled into an escape: the token is not [?], or there is
    something between any two tokens. *)
Local Abbreviation apart fs :=
  (c <> "?"%char
   \/ forallb (fun f => negb (f =? "")%string) (removelast fs) = true).

Lemma starts_escape_fragment (f rest : string) :
  absent c f = true ->
  c <> "?"%char \/ f <> EmptyString \/ rest = EmptyString ->
  starts_escape c (f ++ rest) = false.
Proof.
  intros Hf [N | [N | ->]].
  - now apply no_escape_for_other_tokens.
  - destruct f as [|y f]; [congruence|]. cbn [append starts_escape]. unfold is_escape.
    cbn [absent] in Hf. apply andb_true_iff in Hf as [Hy _]. apply negb_true_iff in Hy.
    destruct (c =? "?")%char eqn:Ec; [ | reflexivity ].
    apply Ascii.eqb_eq in Ec. subst c. now rewrite Hy.
  - rewrite append_nil_r. destruct f as [|y f]; [reflexivity|].
    cbn [starts_escape]. unfold is_escape.
    cbn [absent] in Hf. apply andb_true_iff in Hf as [Hy _]. apply negb_true_iff in Hy.
    destruct (c =? "?")%char eqn:Ec; [ | reflexivity ].
    apply Ascii.eqb_eq in Ec. subst c. now rewrite Hy.
Qed.

Lemma apart_tail (f : string) (fs : list string) : apart (f :: fs) -> apart fs.
Proof.
  intros [N | H]; [now left | right].
  destruct fs as [|g fs]; [reflexivity|].
  cbn [removelast forallb] in H. now apply andb_true_iff in H as [_ H].
Qed.

Lemma apart_head (f : string) (fs : list string) :
  apart (f :: fs) ->
  c <> "?"%char \/ f <> EmptyString \/ concat_lines (map (String c) fs) = EmptyString.
Proof.
  intros [N | H]; [now left | right].
  destruct fs as [|g fs]; [now right | left].
  cbn [removelast forallb] in H. apply andb_true_iff in H as [H _].
  apply negb_true_iff, String.eqb_neq in H. exact H.
Qed.

Lemma fragments_count (fs : list string) :
  forall f0,
    absent c f0 = true ->
    forallb (absent c) fs = true ->
    apart fs ->
    placeholders c (joined f0 fs) = List.length fs.
Proof.
  induction fs as [|f fs IH]; intros f0 H0 Hfs Hap.
  - cbn [map concat_lines fold_right]. rewrite append_nil_r. now apply placeholders_absent.
  - cbn [forallb] in Hfs. apply andb_true_iff in Hfs as [Hf Hfs].
    cbn [map concat_lines fold_right List.length]. fold (concat_lines (map (String c) fs)).
    rewrite (placeholders_skip c f0 _ H0).
    change (String c f ++ concat_lines (map (String c) fs))
      with (String c (joined f fs)).
    rewrite placeholders_token, (starts_escape_fragment f _ Hf (apart_head f fs Hap)).
    f_equal. exact (IH f Hf Hfs (apart_tail f fs Hap)).
Qed.

Lemma fragments_substitute (fs : list string) :
  forall f0 l,
    absent c f0 = true ->
    forallb (absent c) fs = true ->
    apart fs ->
    List.length l = List.length fs ->
    substitute Sprint_v c (joined f0 fs) l = filled f0 l fs.
Proof.
  induction fs as [|f fs IH]; intros f0 l H0 Hfs Hap Hl.
  - destruct l; [ | discriminate Hl ].
    cbn [map concat_lines fold_right combine].
    rewrite append_nil_r. now apply substitute_absent.
  - destruct l as [|a l]; [discriminate Hl|]. injection Hl as Hl.
    cbn [forallb] in Hfs. apply andb_true_iff in Hfs as [Hf Hfs].
    cbn [map concat_lines fold_right combine fst snd].
    fold (concat_lines (map (String c) fs)).
    fold (concat_lines (map (fun af => quoted Sprint_v (fst af) ++ snd af) (combine l fs))).
    rewrite (substitute_skip c Sprint_v f0 _ _ H0).
    change (String c f ++ concat_lines (map (String c) fs))
      with (String c (joined f fs)).
    rewrite substitute_token, (starts_escape_fragment f _ Hf (apart_head f fs Hap)).
    rewrite (IH f l Hf Hfs (apart_tail f fs Hap) Hl).
    now rewrite !append_assoc.
Qed.

(** X17.  Take a text in pieces: a first fragment and then [k] times the
    token followed by a fragment, no fragment holding the token and no two
    tokens next to each other when the token is [?].  With [k] arguments it
    renders as the same fragments with each token replaced by the argument
    of its position in single quotes; every fragment is copied as it is. *)
Theorem render_fragments (f0 : string) (fs : list string) (l : list interface) :
  absent c f0 = true ->
  forallb (absent c) fs = true ->
  (c <> "?"%char
   \/ forallb (fun f => negb (f =? "")%string) (removelast fs) = true) ->
  List.length l = List.length fs ->
  render Sprint_v (String c EmptyString) l (f0 ++ concat_lines (map (String c) fs))
  = Some (Go.Normal (Rendered
      (f0 ++ concat_lines (map (fun af => quoted Sprint_v (fst af) ++ snd af)
                               (combine l fs))))).
Proof.
  intros H0 Hfs Hap Hl. rewrite render_outcome. unfold outcome.
  rewrite (fragments_count fs f0 H0 Hfs Hap), Hl, Nat.ltb_irrefl.
  now rewrite (fragments_substitute fs f0 l H0 Hfs Hap Hl).
Qed.

End Fragments.

Lemma render_fragments_witness :
  absent "?" "x = " = true
  /\ forallb (absent "?") [" AND y = "; ""] = true
  /\ List.length [of_int 1; of_string "text"] = List.length [" AND y = "; ""]
  /\ render (Sprint (fun _ => "")) "?" [of_int 1; of_string "text"] "x = ? AND y = ?"
     = Some (Go.Normal (Rendered "x = '1' AND y = 'text'")).
Proof.
  split; [reflexivity | split; [reflexivity | split; [reflexivity | ] ] ].
  exact (render_fragments (Sprint (fun _ => "")) "?" "x = " [" AND y = "; ""]
           [of_int 1; of_string "text"] eq_refl eq_refl (or_intror eq_refl) eq_refl).
Defined.

(** X18.  Of a placeholder longer than one character only the first
    character is replaced: the cursor moves one character on from where
    the placeholder was found, so the rest of the placeholder stays in the
    rendered text behind the quoted argument. *)
Theorem render_long_placeholder (Sprint_v : interface -> string) (c : ascii)
  (q pre post : string) (a : interface) :
  strings.Index (pre ++ String c (q ++ post)) (String c q) = Some (String.length pre) ->
  strings.Index (q ++ post) (String c q) = None ->
  starts_escape c (q ++ post) = false ->
  render Sprint_v (String c q) [a] (pre ++ String c (q ++ post))
  = Some (Go.Normal (Rendered (pre ++ quoted Sprint_v a ++ q ++ post))).
Proof.
  intros H1 H2 Hesc. unfold render.
  rewrite length_append. cbn [String.length]. rewrite Nat.add_succ_r.
  cbn [DebugSqlizer_loop].
  rewrite H1, (escape_test c pre (q ++ post)), Hesc.
  change (List.length [a] <? 0 + 1)%nat with false. cbn [nth_error].
  rewrite (proj2 (Nat.ltb_ge _ _)) by (rewrite length_append; simpl; lia).
  rewrite <- drop_drop, drop_append, take_append. cbn [drop].
  rewrite H2. cbn [after_loop]. change (1 <? List.length [a])%nat with false.
  unfold quoted. cbn [append]. rewrite (append_assoc pre). reflexivity.
Qed.

Lemma render_long_placeholder_witness :
  strings.Index ("a = " ++ String "@" ("p" ++ "1")) (String "@" "p")
  = Some (String.length "a = ")
  /\ strings.Index ("p" ++ "1") (String "@" "p") = None
  /\ starts_escape "@" ("p" ++ "1") = false
  /\ render (Sprint (fun _ => "")) (String "@" "p") [of_int 5]
       ("a = " ++ String "@" ("p" ++ "1"))
     = Some (Go.Normal (Rendered ("a = " ++ quoted (Sprint (fun _ => "")) (of_int 5)
                                    ++ "p" ++ "1"))).
Proof.
  split; [reflexivity | split; [reflexivity | split; [reflexivity | ] ] ].
  exact (render_long_placeholder (Sprint (fun _ => "")) "@" "p" "a = " "1" (of_int 5)
           eq_refl eq_refl eq_refl).
Defined.

(** ** Execution helpers *)

(** X16.  [ExecWith] and [QueryWith] go to the backend only with a query
    that was produced: after a production error they return that error
    with no result and the backend is not called at all; otherwise they
    make the one call, with the text and the arguments of [ToSql], and
    return what the backend returns. *)
Theorem ExecWith_QueryWith_fail_fast (World Result Rows : Type)
  (ex : Execer World Result) (qu : Queryer World Rows) (query : string)
  (args : list interface) (err : option error) (dbg : option string)
  (st : state World) :
  let s := {| ToSql := (query, args, err); debugPlaceholder := dbg |} in
  ExecWith ex s st
  = match err with
    | Some e => ((None, Some e), st)
    | None => (fst (Exec _ _ ex query args (fst st)),
               (snd (Exec _ _ ex query args (fst st)),
                (snd st ++ [CallExec query args])%list))
    end
  /\ QueryWith qu s st
     = match err with
       | Some e => ((None, Some e), st)
       | None => (fst (Query _ _ qu query args (fst st)),
                  (snd (Query _ _ qu query args (fst st)),
                   (snd st ++ [CallQuery query args])%list))
       end.
Proof.
  cbv zeta. unfold ExecWith, QueryWith, invoke. cbn [ToSql].
  destruct err as [e|]; [split; reflexivity|].
  split.
  - now destruct (Exec _ _ ex query args (fst st)).
  - now destruct (Query _ _ qu query args (fst st)).
Qed.
